(** * http-mock-server: the rule-matching and response-synthesis engine

    A shallow embedding of [internal/config/config.go] and
    [internal/handler/mockHandler.go], and the properties of the rule
    selector, the predicate matchers, the delay calculator and the
    response synthesizer.

    Conventions.
    - Go's [int] and [int64] are 64-bit two's-complement integers, modelled
      as [Z] with the wrap-around written out ([wrap64]).
    - Go's [string] and [[]byte] are byte sequences, modelled as [string].
    - Go maps are [gmap]s.  Go iterates a map in an unspecified order; the
      loops below iterate [map_to_list].
    - A Go panic is the [Panic] outcome of the [Exec] monad.
    - The parts of Go's standard library the handler calls and whose
      behaviour is not fixed here ([strings.ToUpper], [regexp],
      [encoding/json], [math/rand], [textproto]) are the operations of the
      class [GoStd]; [Std.small] is an executable instance. *)

From Stdlib Require Import ZArith String Ascii List Bool Lia.
From stdpp Require Import base option gmap strings pretty list fin_maps.

Local Open Scope string_scope.
Local Open Scope Z_scope.

(** ** Machine integers and durations *)

Definition int_min : Z := - 2 ^ 63.
Definition int_max : Z := 2 ^ 63 - 1.

(** Two's-complement wrap-around of a 64-bit signed integer. *)
Definition wrap64 (z : Z) : Z := (z + 2 ^ 63) mod 2 ^ 64 - 2 ^ 63.

Definition int_add (a b : Z) : Z := wrap64 (a + b).
Definition int_sub (a b : Z) : Z := wrap64 (a - b).
Definition int_mul (a b : Z) : Z := wrap64 (a * b).

(** [time.Duration] is an [int64] count of nanoseconds. *)
Definition Millisecond : Z := 1000000.

(** The longest delay, in milliseconds, that a [time.Duration] can hold. *)
Definition MaxDurationMs : Z := int_max / Millisecond.

(** ** Outcomes of code that may panic *)

Inductive Exec (A : Type) : Type :=
| Ret (a : A)
| Panic (msg : string).
Arguments Ret {A} a.
Arguments Panic {A} msg.

#[global] Instance Exec_ret : MRet Exec := fun A a => Ret a.
#[global] Instance Exec_bind : MBind Exec := fun A B f m =>
  match m with
  | Ret a => f a
  | Panic msg => Panic msg
  end.

(** ** Values of type [interface{}] as the YAML decoder produces them *)

Local Set Warnings "-register-all".

Inductive Value : Type :=
| VNil
| VString (s : string)
| VBool (b : bool)
| VInt (z : Z)
| VSeq (items : list Value)
| VMap (fields : list (string * Value)).

(** ** The standard-library operations the handler relies on *)

Class GoStd : Type := {
  (** [strings.ToUpper] *)
  ToUpper : string -> string;
  (** [textproto.CanonicalMIMEHeaderKey], applied by [http.Header]'s
      [Get], [Set] and [Del] *)
  CanonicalMIMEHeaderKey : string -> string;
  (** a compiled [regexp.Regexp]; [regexp.Compile] is [None] when it
      returns an error *)
  Regexp : Type;
  Compile : string -> option Regexp;
  (** [Regexp.MatchString]; [Regexp.Match] is the same on bytes *)
  MatchString : Regexp -> string -> bool;
  (** [json.Marshal]; [None] when it returns an error *)
  Marshal : Value -> option string;
  (** the state of a [rand.Rand], and the value and next state of
      [Intn n] for [0 < n] *)
  Rand : Type;
  draw : Rand -> Z -> Z * Rand
}.

(** What [math/rand] promises of [Intn]. *)
Definition Intn_in_range `{GoStd} : Prop :=
  forall (g : Rand) (n : Z), 0 < n -> 0 <= fst (draw g n) < n.

(** The case mapping of [strings.ToUpper] maps its results to themselves. *)
Definition ToUpper_idempotent `{GoStd} : Prop :=
  forall s : string, ToUpper (ToUpper s) = ToUpper s.

(** The wildcard pattern (a dot and a star) compiles and its regexp
    matches every string. *)
Definition wildcard_matches_all `{GoStd} : Prop :=
  exists re : Regexp, Compile ".*" = Some re /\ forall v : string, MatchString re v = true.

(** ** package config *)

Module ResponseDelay.
Record t : Type := mk {
  Min : Z; (* Minimum delay in milliseconds *)
  Max : Z  (* Maximum delay in milliseconds *)
}.
End ResponseDelay.

Module ResponseSpec.
Record t : Type := mk {
  Body : Value;
  StatusCode : Z;
  Headers : gmap string string
}.
End ResponseSpec.

Module RequestRule.
Record t : Type := mk {
  Path : string;
  Headers : gmap string string;
  QueryParams : gmap string string;
  Method : string;
  Response : ResponseSpec.t;
  Body : string;
  ResponseDelay : option ResponseDelay.t
}.
End RequestRule.

Module ServerConfig.
Record t : Type := mk { Port : Z }.
End ServerConfig.

Module Config.
Record t : Type := mk {
  Server : ServerConfig.t;
  Requests : list RequestRule.t
}.
End Config.

(** MaxResponseDelayMs is the maximum allowed response delay. *)
Definition MaxResponseDelayMs : Z := 10000.

Inductive ConfigError : Type :=
| ErrPortRequired
| ErrPathRequired (i : nat)
| ErrMethodRequired (i : nat)
| ErrInvalidStatusCode (i : nat) (code : Z)
| ErrDelayMinNegative (i : nat)
| ErrDelayMaxNegative (i : nat)
| ErrDelayMinExceedsMax (i : nat) (min max : Z)
| ErrDelayMaxExceedsLimit (i : nat) (max limit : Z).

Section ConfigCode.
Context `{GoStd}.

(** The body of the loop of [setDefaults], on one rule. *)
Definition setDefaults_rule (rule : RequestRule.t) : RequestRule.t :=
  let method := if bool_decide (RequestRule.Method rule = EmptyString)
                then "GET" else RequestRule.Method rule in
  let resp := RequestRule.Response rule in
  let code := if ResponseSpec.StatusCode resp =? 0
              then 200 else ResponseSpec.StatusCode resp in
  RequestRule.mk (RequestRule.Path rule) (RequestRule.Headers rule)
    (RequestRule.QueryParams rule) (ToUpper method)
    (ResponseSpec.mk (ResponseSpec.Body resp) code (ResponseSpec.Headers resp))
    (RequestRule.Body rule) (RequestRule.ResponseDelay rule).

Definition setDefaults (c : Config.t) : Config.t :=
  let port := if ServerConfig.Port (Config.Server c) =? 0
              then 8080 else ServerConfig.Port (Config.Server c) in
  Config.mk (ServerConfig.mk port) (map setDefaults_rule (Config.Requests c)).

End ConfigCode.

(** The checks [validate] makes on the [responseDelay] of rule [i]. *)
Definition validate_delay (i : nat) (delay : ResponseDelay.t) : option ConfigError :=
  if ResponseDelay.Min delay <? 0 then Some (ErrDelayMinNegative i)
  else if ResponseDelay.Max delay <? 0 then Some (ErrDelayMaxNegative i)
  else if ResponseDelay.Max delay <? ResponseDelay.Min delay
  then Some (ErrDelayMinExceedsMax i (ResponseDelay.Min delay) (ResponseDelay.Max delay))
  else if MaxResponseDelayMs <? ResponseDelay.Max delay
  then Some (ErrDelayMaxExceedsLimit i (ResponseDelay.Max delay) MaxResponseDelayMs)
  else None.

(** The body of the loop of [validate], on rule [i]. *)
Definition validate_rule (i : nat) (rule : RequestRule.t) : option ConfigError :=
  if bool_decide (RequestRule.Path rule = EmptyString) then Some (ErrPathRequired i)
  else if bool_decide (RequestRule.Method rule = EmptyString) then Some (ErrMethodRequired i)
  else if (ResponseSpec.StatusCode (RequestRule.Response rule) <? 100)
          || (599 <? ResponseSpec.StatusCode (RequestRule.Response rule))
  then Some (ErrInvalidStatusCode i (ResponseSpec.StatusCode (RequestRule.Response rule)))
  else match RequestRule.ResponseDelay rule with
       | Some delay => validate_delay i delay
       | None => None
       end.

Fixpoint validate_rules (i : nat) (rules : list RequestRule.t) : option ConfigError :=
  match rules with
  | [] => None
  | rule :: rest =>
      match validate_rule i rule with
      | Some e => Some e
      | None => validate_rules (S i) rest
      end
  end.

(** [validate]: [None] is the [nil] error. *)
Definition validate (c : Config.t) : option ConfigError :=
  if ServerConfig.Port (Config.Server c) =? 0 then Some ErrPortRequired
  else validate_rules 0 (Config.Requests c).

(** ** net/http, net/url, io and time: the parts the handler uses *)

(** [http.Header] and [url.Values] both map a name to its list of values;
    their [Get] returns the first value, or the empty string. *)
Abbreviation Header := (gmap string (list string)).
Abbreviation Values := (gmap string (list string)).

Definition first_value (vs : option (list string)) : string :=
  match vs with
  | Some (v :: _) => v
  | _ => EmptyString
  end.

Definition Values_Get (v : Values) (key : string) : string := first_value (v !! key).

Definition LF : string := String "010"%char EmptyString.

(** [r.Body]: the bytes not read yet, and whether reading ends in an
    error instead of the end of the stream. *)
Module Reader.
Record t : Type := mk { pending : string; failing : bool }.
End Reader.

(** [io.ReadAll]: the bytes read, whether [err != nil], and the drained reader. *)
Definition ReadAll (b : Reader.t) : string * bool * Reader.t :=
  (Reader.pending b, Reader.failing b, Reader.mk EmptyString (Reader.failing b)).

(** [io.NopCloser(strings.NewReader(s))] *)
Definition NewReader (s : string) : Reader.t := Reader.mk s false.

Module Request.
Record t : Type := mk {
  Method : string;
  Path : string;      (* r.URL.Path *)
  Query : Values;     (* r.URL.Query() *)
  Header : Header;
  Body : Reader.t;
  (* r.Context(): the instant, in nanoseconds after the handler starts to
     wait, at which Done() is closed; None when it never is *)
  DoneAt : option Z
}.
End Request.

(** The state of an [http.ResponseWriter], as [httptest.ResponseRecorder]
    keeps it. *)
Module ResponseWriter.
Record t : Type := mk {
  HeaderMap : Header;
  wroteHeader : bool;
  Code : Z;
  Body : string
}.
End ResponseWriter.

(** [httptest.NewRecorder()] *)
Definition NewRecorder : ResponseWriter.t := ResponseWriter.mk ∅ false 200 EmptyString.

(** [w.WriteHeader(code)] *)
Definition WriteHeader (w : ResponseWriter.t) (code : Z) : Exec ResponseWriter.t :=
  if ResponseWriter.wroteHeader w then Ret w
  else if (code <? 100) || (999 <? code) then Panic "invalid WriteHeader code"
  else Ret (ResponseWriter.mk (ResponseWriter.HeaderMap w) true code (ResponseWriter.Body w)).

(** [w.Write(data)]: the first write commits status 200 when none was set. *)
Definition WriteBytes (w : ResponseWriter.t) (data : string) : ResponseWriter.t :=
  ResponseWriter.mk (ResponseWriter.HeaderMap w) true
    (if ResponseWriter.wroteHeader w then ResponseWriter.Code w else 200)
    (ResponseWriter.Body w +:+ data).

(** The two cases of the [select] in [writeResponse]. *)
Inductive Selected : Type :=
| DelayCompleted   (* <-time.After(duration) *)
| ContextDone.     (* <-r.Context().Done() *)

(** [select] blocks until a case is ready and takes it; [tie] decides
    when both are ready at once.  The timer is ready [duration]
    nanoseconds after the wait starts (at once when [duration <= 0]). *)
Definition select_wait (duration : Z) (doneAt : option Z) (tie : bool) : Selected :=
  match doneAt with
  | None => DelayCompleted
  | Some t =>
      if Z.max 0 t <? Z.max 0 duration then ContextDone
      else if Z.max 0 duration <? Z.max 0 t then DelayCompleted
      else if tie then ContextDone else DelayCompleted
  end.

Definition StatusNotFound : Z := 404.

Section Handler.
Context `{GoStd}.

Definition Header_Get (h : Header) (key : string) : string :=
  first_value (h !! CanonicalMIMEHeaderKey key).

Definition Header_Set (w : ResponseWriter.t) (key value : string) : ResponseWriter.t :=
  ResponseWriter.mk (<[CanonicalMIMEHeaderKey key := [value]]> (ResponseWriter.HeaderMap w))
    (ResponseWriter.wroteHeader w) (ResponseWriter.Code w) (ResponseWriter.Body w).

Definition Header_Del (w : ResponseWriter.t) (key : string) : ResponseWriter.t :=
  ResponseWriter.mk (delete (CanonicalMIMEHeaderKey key) (ResponseWriter.HeaderMap w))
    (ResponseWriter.wroteHeader w) (ResponseWriter.Code w) (ResponseWriter.Body w).

(** [http.Error(w, error, code)] *)
Definition http_Error (w : ResponseWriter.t) (error : string) (code : Z) : Exec ResponseWriter.t :=
  let w := Header_Del w "Content-Length" in
  let w := Header_Set w "Content-Type" "text/plain; charset=utf-8" in
  let w := Header_Set w "X-Content-Type-Options" "nosniff" in
  w ← WriteHeader w code;
  Ret (WriteBytes w (error +:+ LF)).

(** [http.NotFound(w, r)] *)
Definition http_NotFound (w : ResponseWriter.t) : Exec ResponseWriter.t :=
  http_Error w "404 page not found" StatusNotFound.

(** [Intn] of [rand.Rand] panics unless its argument is positive. *)
Definition Intn (g : Rand) (n : Z) : Exec (Z * Rand) :=
  if n <=? 0 then Panic "invalid argument to Intn" else Ret (draw g n).

(** ** package handler *)

(** MockHandler handles mock requests based on configuration. *)
Record MockHandler : Type := NewMockHandlerWithRand {
  config : Config.t;
  rand : Rand
}.

(** What a call of the handler leaves behind. *)
Record Served : Type := mkServed {
  writer : ResponseWriter.t;   (* the response written *)
  handler : MockHandler;       (* the handler, with the state of its random source *)
  waited : option Z            (* the duration given to time.After, if any *)
}.

Definition matchesHeaders (ruleHeaders : gmap string string) (requestHeaders : Header) : bool :=
  (* If no headers are specified in the rule, it matches any request *)
  if bool_decide (size ruleHeaders = 0%nat) then true
  else
    (* All rule headers must match *)
    forallb (fun '(headerName, headerPattern) =>
      let requestValue := Header_Get requestHeaders headerName in
      match Compile headerPattern with
      | None => bool_decide (requestValue = headerPattern)
      | Some pattern => MatchString pattern requestValue
      end) (map_to_list ruleHeaders).

Definition matchesQueryParams (ruleParams : gmap string string) (requestParams : Values) : bool :=
  (* If no query params are specified in the rule, it matches any request *)
  if bool_decide (size ruleParams = 0%nat) then true
  else
    (* All rule query params must match *)
    forallb (fun '(paramName, paramPattern) =>
      let requestValue := Values_Get requestParams paramName in
      match Compile paramPattern with
      | None => bool_decide (requestValue = paramPattern)
      | Some pattern => MatchString pattern requestValue
      end) (map_to_list ruleParams).

(** [matchesBody] reads the body and puts a fresh reader over the bytes
    read in its place; the request comes back with the result. *)
Definition matchesBody (ruleBody : string) (r : Request.t) : bool * Request.t :=
  if bool_decide (ruleBody = EmptyString) then (true, r)
  else
    let '(body, err, drained) := ReadAll (Request.Body r) in
    if err then
      (false, Request.mk (Request.Method r) (Request.Path r) (Request.Query r)
                (Request.Header r) drained (Request.DoneAt r))
    else
      let r := Request.mk (Request.Method r) (Request.Path r) (Request.Query r)
                 (Request.Header r) (NewReader body) (Request.DoneAt r) in
      match Compile ruleBody with
      | None => (false, r)
      | Some pattern => (MatchString pattern body, r)
      end.

(** The loop of [findMatchingRule] from index [i] on, over the rules
    [rules] that remain.  The result points at the rule by its index. *)
Fixpoint findMatchingRule_from (rules : list RequestRule.t) (i : nat)
    (path method : string) (r : Request.t) : option (nat * RequestRule.t) * Request.t :=
  match rules with
  | [] => (None, r)
  | rule :: rest =>
      if negb (bool_decide (RequestRule.Path rule = path))
      then findMatchingRule_from rest (S i) path method r
      else if negb (bool_decide (RequestRule.Method rule = method))
      then findMatchingRule_from rest (S i) path method r
      else if negb (matchesHeaders (RequestRule.Headers rule) (Request.Header r))
      then findMatchingRule_from rest (S i) path method r
      else if negb (matchesQueryParams (RequestRule.QueryParams rule) (Request.Query r))
      then findMatchingRule_from rest (S i) path method r
      else
        let '(ok, r) := matchesBody (RequestRule.Body rule) r in
        if negb ok then findMatchingRule_from rest (S i) path method r
        else (Some (i, rule), r)
  end.

Definition findMatchingRule (h : MockHandler) (r : Request.t)
    : option (nat * RequestRule.t) * Request.t :=
  let path := Request.Path r in
  let method := ToUpper (Request.Method r) in
  findMatchingRule_from (Config.Requests (config h)) 0%nat path method r.

Definition calculateDelay (h : MockHandler) (delay : ResponseDelay.t) : Exec (Z * MockHandler) :=
  '(ms, h) ←
    (if ResponseDelay.Min delay <? ResponseDelay.Max delay then
       '(k, g) ← Intn (rand h)
                   (int_add (int_sub (ResponseDelay.Max delay) (ResponseDelay.Min delay)) 1);
       Ret (int_add (ResponseDelay.Min delay) k, NewMockHandlerWithRand (config h) g)
     else Ret (ResponseDelay.Min delay, h));
  Ret (int_mul ms Millisecond, h).

(** [writeBody]: the writer, and the error returned if any. *)
Definition writeBody (w : ResponseWriter.t) (body : Value) : ResponseWriter.t * option string :=
  match body with
  | VString v => (WriteBytes w v, None)
  | v =>
      match Marshal v with
      | None => (w, Some "failed to marshal JSON")
      | Some data => (WriteBytes w data, None)
      end
  end.

(** [writeResponse] once the delay is over: response headers, status
    code, body. *)
Definition sendResponse (w : ResponseWriter.t) (rule : RequestRule.t) : Exec ResponseWriter.t :=
  (* Set response headers *)
  let w := foldl (fun w '(key, value) => Header_Set w key value) w
             (map_to_list (ResponseSpec.Headers (RequestRule.Response rule))) in
  (* Set status code *)
  w ← WriteHeader w (ResponseSpec.StatusCode (RequestRule.Response rule));
  (* Write body if present *)
  match ResponseSpec.Body (RequestRule.Response rule) with
  | VNil => Ret w
  | body => Ret (fst (writeBody w body))
  end.

Definition writeResponse (h : MockHandler) (w : ResponseWriter.t) (r : Request.t)
    (rule : RequestRule.t) (tie : bool) : Exec Served :=
  (* Apply response delay if configured *)
  match RequestRule.ResponseDelay rule with
  | Some delay =>
      '(duration, h) ← calculateDelay h delay;
      match select_wait duration (Request.DoneAt r) tie with
      | DelayCompleted =>
          w ← sendResponse w rule; Ret (mkServed w h (Some duration))
      | ContextDone =>
          (* Client disconnected, abort *)
          Ret (mkServed w h (Some duration))
      end
  | None =>
      w ← sendResponse w rule; Ret (mkServed w h None)
  end.

Definition ServeHTTP (h : MockHandler) (w : ResponseWriter.t) (r : Request.t)
    (tie : bool) : Exec Served :=
  match findMatchingRule h r with
  | (None, _) => w ← http_NotFound w; Ret (mkServed w h None)
  | (Some (_, rule), r) => writeResponse h w r rule tie
  end.

(** The helper of the repository's tests: a request with the given
    method, path, decoded query, headers and body, served into a fresh
    recorder.  The context of the request is never done. *)
Definition performRequest (h : MockHandler) (method path : string) (query : Values)
    (headers : list (string * string)) (body : string) : Exec Served :=
  let hdr := foldl (fun m '(k, v) => <[CanonicalMIMEHeaderKey k := [v]]> m)
               (∅ : Header) headers in
  ServeHTTP h NewRecorder (Request.mk method path query hdr (NewReader body) None) false.

(** What the tests look at: [rr.Code] and [rr.Body.String()]. *)
Definition recorded (e : Exec Served) : option (Z * string) :=
  match e with
  | Ret served =>
      Some (ResponseWriter.Code (writer served), ResponseWriter.Body (writer served))
  | Panic _ => None
  end.

(** *** The conditions of the selector, one by one *)

(** The test the loops of [matchesHeaders] and [matchesQueryParams] make
    on one entry: the pattern of the rule against the value of the request. *)
Definition matchesPattern (pattern value : string) : bool :=
  match Compile pattern with
  | None => bool_decide (value = pattern)
  | Some re => MatchString re value
  end.

(** The method condition of [findMatchingRule]. *)
Definition method_matches (rule : RequestRule.t) (r : Request.t) : bool :=
  bool_decide (RequestRule.Method rule = ToUpper (Request.Method r)).

(** The five conditions of the loop of [findMatchingRule] on one rule,
    for the [path] and [method] the loop compares with. *)
Definition satisfies_as (path method : string) (rule : RequestRule.t) (r : Request.t) : bool :=
  bool_decide (RequestRule.Path rule = path)
  && bool_decide (RequestRule.Method rule = method)
  && matchesHeaders (RequestRule.Headers rule) (Request.Header r)
  && matchesQueryParams (RequestRule.QueryParams rule) (Request.Query r)
  && fst (matchesBody (RequestRule.Body rule) r).

(** A rule satisfies all matching conditions: path, method, headers,
    query parameters and body. *)
Definition satisfies (rule : RequestRule.t) (r : Request.t) : bool :=
  satisfies_as (Request.Path r) (ToUpper (Request.Method r)) rule r.

End Handler.

(** ** An executable instance of the library operations *)

(** A regular-expression engine for a fragment of the syntax of Go's
    [regexp]: literals, [.], bracket classes with ranges and negation,
    groups, alternation, the postfix operators (also lazy), the anchors and
    the escapes of punctuation and of the classes d, w and s.  A pattern
    outside the fragment is reported as an error, as an ill-formed one is.
    Matching is by derivatives, unanchored. *)
Module SmallRE.

Inductive re : Type :=
| Fail
| Eps
| Chr (c : ascii)
| AnyButNL
| Class (neg : bool) (ranges : list (ascii * ascii))
| Seq (a b : re)
| Alt (a b : re)
| Star (a : re)
| Bol
| Eol.

Definition between (lo hi c : ascii) : bool :=
  (nat_of_ascii lo <=? nat_of_ascii c)%nat && (nat_of_ascii c <=? nat_of_ascii hi)%nat.

Definition in_ranges (c : ascii) (rs : list (ascii * ascii)) : bool :=
  existsb (fun '(lo, hi) => between lo hi c) rs.

(** Does [e] match the empty string, at the beginning ([bot]) or the end
    ([eot]) of the text? *)
Fixpoint nullable (bot eot : bool) (e : re) : bool :=
  match e with
  | Fail | Chr _ | AnyButNL | Class _ _ => false
  | Eps | Star _ => true
  | Seq a b => nullable bot eot a && nullable bot eot b
  | Alt a b => nullable bot eot a || nullable bot eot b
  | Bol => bot
  | Eol => eot
  end.

Fixpoint deriv (bot : bool) (c : ascii) (e : re) : re :=
  match e with
  | Fail | Eps | Bol | Eol => Fail
  | Chr d => if Ascii.eqb c d then Eps else Fail
  | AnyButNL => if Ascii.eqb c "010" then Fail else Eps
  | Class neg rs => if xorb neg (in_ranges c rs) then Eps else Fail
  | Seq a b =>
      Alt (Seq (deriv bot c a) b) (if nullable bot false a then deriv bot c b else Fail)
  | Alt a b => Alt (deriv bot c a) (deriv bot c b)
  | Star a => Seq (deriv bot c a) (Star a)
  end.

(** Does [e] match a prefix of [s]? *)
Fixpoint matches_prefix (e : re) (bot : bool) (s : list ascii) : bool :=
  match s with
  | [] => nullable bot true e
  | c :: s' => nullable bot false e || matches_prefix (deriv bot c e) false s'
  end.

(** Does [e] match somewhere in [s]? *)
Fixpoint search (e : re) (bot : bool) (s : list ascii) : bool :=
  matches_prefix e bot s ||
  match s with
  | [] => false
  | _ :: s' => search e false s'
  end.

(** The parser keeps, for each open group, the alternatives closed so far
    and the pieces of the current one (both latest first). *)
Record frame : Type := mkFrame { alts : list re; cur : list re }.

Inductive mode : Type :=
| Normal
| Escaped
| InClass (raw : list ascii).

Inductive rep : Type := NoRep | Repeated | Lazy.

Definition concat (pieces : list re) : re := fold_left (fun acc e => Seq e acc) pieces Eps.

Definition close (f : frame) : re :=
  fold_left (fun acc e => Alt e acc) (alts f) (concat (cur f)).

Definition push (e : re) (f : frame) : frame := mkFrame (alts f) (e :: cur f).

Definition repeat_last (op : re -> re) (f : frame) (rp : rep) : option frame :=
  match rp, cur f with
  | NoRep, a :: rest => Some (mkFrame (alts f) (op a :: rest))
  | _, _ => None
  end.

Fixpoint ranges_of (raw : list ascii) : option (list (ascii * ascii)) :=
  match raw with
  | [] => Some []
  | a :: (("-"%char :: b :: rest) as tl) =>
      if (nat_of_ascii a <=? nat_of_ascii b)%nat
      then option_map (cons (a, b)) (ranges_of rest)
      else None
  | a :: rest => option_map (cons (a, a)) (ranges_of rest)
  end.

Definition mkClass (raw : list ascii) : option re :=
  match raw with
  | "^"%char :: rest => option_map (Class true) (ranges_of rest)
  | _ => option_map (Class false) (ranges_of raw)
  end.

Definition is_punct (c : ascii) : bool :=
  between "!" "/" c || between ":" "@" c || between "[" "`" c || between "{" "~" c.

Definition escape (c : ascii) : option re :=
  if Ascii.eqb c "d" then Some (Class false [("0", "9")]%char)
  else if Ascii.eqb c "w"
  then Some (Class false [("0", "9"); ("A", "Z"); ("a", "z"); ("_", "_")]%char)
  else if Ascii.eqb c "s"
  then Some (Class false [("009", "010"); ("012", "013"); (" ", " ")]%char)
  else if is_punct c then Some (Chr c)
  else None.

Definition is_char (c : ascii) (s : string) : bool :=
  match s with
  | String d EmptyString => Ascii.eqb c d
  | _ => false
  end.

Fixpoint parse (cs : list ascii) (m : mode) (stack : list frame) (top : frame) (rp : rep)
    : option re :=
  match cs with
  | [] =>
      match m, stack with
      | Normal, [] => Some (close top)
      | _, _ => None
      end
  | c :: cs' =>
      match m with
      | Escaped =>
          match escape c with
          | Some e => parse cs' Normal stack (push e top) NoRep
          | None => None
          end
      | InClass raw =>
          if is_char c "]" && negb (match raw with [] | ["^"%char] => true | _ => false end) then
            match mkClass (rev raw) with
            | Some e => parse cs' Normal stack (push e top) NoRep
            | None => None
            end
          else if is_char c "\" || is_char c "[" then None
          else parse cs' (InClass (c :: raw)) stack top rp
      | Normal =>
          if is_char c "\" then parse cs' Escaped stack top rp
          else if is_char c "[" then parse cs' (InClass []) stack top rp
          else if is_char c "(" then
            match cs' with
            | "?"%char :: _ => None
            | _ => parse cs' Normal (top :: stack) (mkFrame [] []) NoRep
            end
          else if is_char c ")" then
            match stack with
            | [] => None
            | f :: stack' => parse cs' Normal stack' (push (close top) f) NoRep
            end
          else if is_char c "|" then
            parse cs' Normal stack (mkFrame (concat (cur top) :: alts top) []) NoRep
          else if is_char c "*" then
            match repeat_last Star top rp with
            | Some top' => parse cs' Normal stack top' Repeated
            | None => None
            end
          else if is_char c "+" then
            match repeat_last (fun a => Seq a (Star a)) top rp with
            | Some top' => parse cs' Normal stack top' Repeated
            | None => None
            end
          else if is_char c "?" then
            match rp with
            | Repeated => parse cs' Normal stack top Lazy
            | _ =>
                match repeat_last (fun a => Alt a Eps) top rp with
                | Some top' => parse cs' Normal stack top' Repeated
                | None => None
                end
            end
          else if is_char c "{" then None
          else if is_char c "." then parse cs' Normal stack (push AnyButNL top) NoRep
          else if is_char c "^" then parse cs' Normal stack (push Bol top) NoRep
          else if is_char c "$" then parse cs' Normal stack (push Eol top) NoRep
          else parse cs' Normal stack (push (Chr c) top) NoRep
      end
  end.

Definition compile (pattern : string) : option re :=
  parse (list_ascii_of_string pattern) Normal [] (mkFrame [] []) NoRep.

Definition match_string (e : re) (s : string) : bool :=
  search e true (list_ascii_of_string s).

End SmallRE.

(** [strings.ToUpper] and [textproto.CanonicalMIMEHeaderKey] on ASCII. *)
Module SmallText.

Definition shift (c : ascii) (up : bool) : ascii :=
  ascii_of_nat (if up then nat_of_ascii c - 32 else nat_of_ascii c + 32).

Definition upper_byte (c : ascii) : ascii :=
  if SmallRE.between "a" "z" c then shift c true else c.

Fixpoint to_upper (s : string) : string :=
  match s with
  | EmptyString => EmptyString
  | String c s' => String (upper_byte c) (to_upper s')
  end.

Definition valid_field_byte (c : ascii) : bool :=
  SmallRE.between "0" "9" c || SmallRE.between "a" "z" c || SmallRE.between "A" "Z" c
  || existsb (Ascii.eqb c) (list_ascii_of_string "!#$%&'*+-.^_`|~").

(** First letter upper case, and upper case after each dash. *)
Fixpoint canonical (upper : bool) (s : string) : string :=
  match s with
  | EmptyString => EmptyString
  | String c s' =>
      let c' := if upper && SmallRE.between "a" "z" c then shift c true
                else if negb upper && SmallRE.between "A" "Z" c then shift c false
                else c in
      String c' (canonical (Ascii.eqb c' "-") s')
  end.

(** A key with a byte that is not valid in a field name is left as it is. *)
Definition canonical_key (s : string) : string :=
  if forallb valid_field_byte (list_ascii_of_string s) then canonical true s else s.

End SmallText.

(** [json.Marshal] on [Value]: compact output, object keys sorted, the
    string escapes of [encoding/json] for ASCII. *)
Module SmallJSON.

Definition quote_mark : string := String "034"%char EmptyString.

Definition hex_digit (n : nat) : string :=
  String (nth n (list_ascii_of_string "0123456789abcdef") "0"%char) EmptyString.

Definition escape_byte (c : ascii) : string :=
  if Ascii.eqb c "034" then "\" +:+ quote_mark
  else if Ascii.eqb c "\" then "\\"
  else if Ascii.eqb c "008" then "\b"
  else if Ascii.eqb c "012" then "\f"
  else if Ascii.eqb c "010" then "\n"
  else if Ascii.eqb c "013" then "\r"
  else if Ascii.eqb c "009" then "\t"
  else if (nat_of_ascii c <? 32)%nat || Ascii.eqb c "<" || Ascii.eqb c ">" || Ascii.eqb c "&"
  then "\u00" +:+ hex_digit (nat_of_ascii c / 16) +:+ hex_digit (nat_of_ascii c mod 16)
  else String c EmptyString.

Fixpoint escape_string (s : string) : string :=
  match s with
  | EmptyString => EmptyString
  | String c s' => escape_byte c +:+ escape_string s'
  end.

Definition quote (s : string) : string := quote_mark +:+ escape_string s +:+ quote_mark.

Fixpoint insert_field (f : string * string) (fs : list (string * string))
    : list (string * string) :=
  match fs with
  | [] => [f]
  | g :: rest => if String.leb (fst f) (fst g) then f :: g :: rest else g :: insert_field f rest
  end.

Definition sort_fields (fs : list (string * string)) : list (string * string) :=
  foldr insert_field [] fs.

Definition join (sep : string) (parts : list string) : string :=
  match parts with
  | [] => EmptyString
  | p :: rest => fold_left (fun acc q => acc +:+ sep +:+ q) rest p
  end.

Fixpoint marshal (v : Value) : string :=
  match v with
  | VNil => "null"
  | VString s => quote s
  | VBool b => if b then "true" else "false"
  | VInt z => pretty z
  | VSeq items => "[" +:+ join "," (map marshal items) +:+ "]"
  | VMap fields =>
      "{" +:+ join ","
                (map (fun f => quote (fst f) +:+ ":" +:+ snd f)
                   (sort_fields (map (fun f => (fst f, marshal (snd f))) fields)))
          +:+ "}"
  end.

End SmallJSON.

(** A linear congruential generator for [math/rand]. *)
Module SmallRand.

Definition next (g : Z) : Z := (g * 6364136223846793005 + 1442695040888963407) mod 2 ^ 63.

Definition draw (g : Z) (n : Z) : Z * Z := (next g mod n, next g).

End SmallRand.

Module Std.

Definition small : GoStd := {|
  ToUpper := SmallText.to_upper;
  CanonicalMIMEHeaderKey := SmallText.canonical_key;
  Regexp := SmallRE.re;
  Compile := SmallRE.compile;
  MatchString := SmallRE.match_string;
  Marshal := fun v => Some (SmallJSON.marshal v);
  Rand := Z;
  draw := SmallRand.draw
|}.

End Std.

(** Handlers and rules for the examples, over [Std.small]. *)
Module Fixtures.

#[local] Existing Instance Std.small.

Definition handler_of (rules : list RequestRule.t) : MockHandler :=
  NewMockHandlerWithRand (Config.mk (ServerConfig.mk 8080) rules) 42.

Definition rule_of (path method : string) (headers query : gmap string string)
    (code : Z) (body : Value) : RequestRule.t :=
  RequestRule.mk path headers query method (ResponseSpec.mk body code ∅) EmptyString None.

End Fixtures.

(** ** The rest of the packages: loading, the server's limits, logging *)

(** What [validate] asks of one rule. *)
Definition valid_delay (delay : ResponseDelay.t) : Prop :=
  0 <= ResponseDelay.Min delay /\
  ResponseDelay.Min delay <= ResponseDelay.Max delay /\
  ResponseDelay.Max delay <= MaxResponseDelayMs.

Definition valid_rule (rule : RequestRule.t) : Prop :=
  RequestRule.Path rule <> EmptyString /\
  RequestRule.Method rule <> EmptyString /\
  100 <= ResponseSpec.StatusCode (RequestRule.Response rule) <= 599 /\
  (forall delay, RequestRule.ResponseDelay rule = Some delay -> valid_delay delay).

(** The index of the rule an error message names. *)
Definition error_rule_index (e : ConfigError) : option nat :=
  match e with
  | ErrPortRequired => None
  | ErrPathRequired i | ErrMethodRequired i | ErrInvalidStatusCode i _
  | ErrDelayMinNegative i | ErrDelayMaxNegative i
  | ErrDelayMinExceedsMax i _ _ | ErrDelayMaxExceedsLimit i _ _ => Some i
  end.

(** [Load] once the file is read and parsed: defaults, then validation.
    ([setDefaults] never returns an error.) *)
Definition Load_parsed `{GoStd} (parsed : Config.t) : Config.t + ConfigError :=
  let config := setDefaults parsed in
  match validate config with
  | Some e => inr e
  | None => inl config
  end.

(** [strings.ToUpper] maps no string but the empty one to the empty string. *)
Definition ToUpper_keeps_nonempty `{GoStd} : Prop :=
  forall s : string, s <> EmptyString -> ToUpper s <> EmptyString.

(** [setupServer]: [WriteTimeout: 15 * time.Second]. *)
Definition Second : Z := 1000 * Millisecond.
Definition WriteTimeout : Z := 15 * Second.

(** The bytes [writeBody] writes for a response body; none for nil. *)
Definition body_bytes `{GoStd} (body : Value) : string :=
  match body with
  | VNil => EmptyString
  | VString s => s
  | v =>
      match Marshal v with
      | Some data => data
      | None => EmptyString
      end
  end.

(** *** The logging middleware *)

(** The calls a handler makes on its [http.ResponseWriter]. *)
Inductive WriterCall : Type :=
| CallHeaderSet (key value : string)   (* w.Header().Set(key, value) *)
| CallHeaderDel (key : string)         (* w.Header().Del(key) *)
| CallWriteHeader (code : Z)           (* w.WriteHeader(code) *)
| CallWrite (data : string).           (* w.Write(data) *)

(** loggingResponseWriter wraps http.ResponseWriter to capture response data. *)
Module loggingResponseWriter.
Record t : Type := mk {
  ResponseWriter : ResponseWriter.t;
  statusCode : Z;
  body : string
}.
End loggingResponseWriter.

(** The log line, as far as the model of the request goes: the method,
    the request body, the status and the response body given to [log.Printf]. *)
Record LogLine : Type := mkLogLine {
  logMethod : string;
  logRequestBody : string;
  logStatus : Z;
  logResponseBody : string
}.

Definition or_empty (s : string) : string :=
  if bool_decide (s = EmptyString) then "(empty)" else s.

(** The bytes of the calls [Write] among [cs], in order. *)
Fixpoint written (cs : list WriterCall) : string :=
  match cs with
  | [] => EmptyString
  | CallWrite data :: rest => data +:+ written rest
  | _ :: rest => written rest
  end.

Definition is_WriteHeader (c : WriterCall) : bool :=
  match c with
  | CallWriteHeader _ => true
  | _ => false
  end.

Definition is_header_call (c : WriterCall) : bool :=
  match c with
  | CallHeaderSet _ _ | CallHeaderDel _ => true
  | _ => false
  end.

Section Logging.
Context `{GoStd}.

(** One call, and a sequence of calls, on the response writer itself. *)
Definition call (w : ResponseWriter.t) (c : WriterCall) : Exec ResponseWriter.t :=
  match c with
  | CallHeaderSet key value => Ret (Header_Set w key value)
  | CallHeaderDel key => Ret (Header_Del w key)
  | CallWriteHeader code => WriteHeader w code
  | CallWrite data => Ret (WriteBytes w data)
  end.

Fixpoint calls (w : ResponseWriter.t) (cs : list WriterCall) : Exec ResponseWriter.t :=
  match cs with
  | [] => Ret w
  | c :: rest => w ← call w c; calls w rest
  end.

(** [loggingResponseWriter.WriteHeader] *)
Definition lw_WriteHeader (lw : loggingResponseWriter.t) (code : Z)
    : Exec loggingResponseWriter.t :=
  w ← WriteHeader (loggingResponseWriter.ResponseWriter lw) code;
  Ret (loggingResponseWriter.mk w code (loggingResponseWriter.body lw)).

(** [loggingResponseWriter.Write]: write to both the response body buffer
    and the actual response. *)
Definition lw_Write (lw : loggingResponseWriter.t) (data : string) : loggingResponseWriter.t :=
  loggingResponseWriter.mk
    (WriteBytes (loggingResponseWriter.ResponseWriter lw) data)
    (loggingResponseWriter.statusCode lw)
    (loggingResponseWriter.body lw +:+ data).

(** [Header] is the method of the embedded writer. *)
Definition lw_call (lw : loggingResponseWriter.t) (c : WriterCall)
    : Exec loggingResponseWriter.t :=
  match c with
  | CallWriteHeader code => lw_WriteHeader lw code
  | CallWrite data => Ret (lw_Write lw data)
  | c =>
      w ← call (loggingResponseWriter.ResponseWriter lw) c;
      Ret (loggingResponseWriter.mk w (loggingResponseWriter.statusCode lw)
             (loggingResponseWriter.body lw))
  end.

Fixpoint lw_calls (lw : loggingResponseWriter.t) (cs : list WriterCall)
    : Exec loggingResponseWriter.t :=
  match cs with
  | [] => Ret lw
  | c :: rest => lw ← lw_call lw c; lw_calls lw rest
  end.

(** The first lines of the middleware: read the request body (an error of
    the read is dropped) and restore it for the next handler. *)
Definition bufferRequestBody (r : Request.t) : string * Request.t :=
  let '(requestBody, _, _) := ReadAll (Request.Body r) in
  (requestBody,
   Request.mk (Request.Method r) (Request.Path r) (Request.Query r) (Request.Header r)
     (NewReader requestBody) (Request.DoneAt r)).

(** [LoggingMiddleware(next)], for a handler [next] given by the calls it
    makes on its writer: the response written and the line logged. *)
Definition LoggingMiddleware (next : Request.t -> Exec (list WriterCall))
    (w : ResponseWriter.t) (r : Request.t) : Exec (ResponseWriter.t * LogLine) :=
  (* Read and log request body *)
  let '(requestBody, r) := bufferRequestBody r in
  (* Wrap the response writer to capture response data *)
  let lw := loggingResponseWriter.mk w 200 EmptyString in
  (* Call the next handler *)
  cs ← next r;
  lw ← lw_calls lw cs;
  Ret (loggingResponseWriter.ResponseWriter lw,
       mkLogLine (Request.Method r) (or_empty requestBody)
         (loggingResponseWriter.statusCode lw)
         (or_empty (loggingResponseWriter.body lw))).

(** The calls of the mock handler on its writer. *)
Definition sendResponse_calls (rule : RequestRule.t) : list WriterCall :=
  map (fun '(key, value) => CallHeaderSet key value)
    (map_to_list (ResponseSpec.Headers (RequestRule.Response rule)))
  ++ CallWriteHeader (ResponseSpec.StatusCode (RequestRule.Response rule))
  :: match ResponseSpec.Body (RequestRule.Response rule) with
     | VNil => []
     | VString v => [CallWrite v]
     | v =>
         match Marshal v with
         | None => []
         | Some data => [CallWrite data]
         end
     end.

Definition http_NotFound_calls : list WriterCall :=
  [CallHeaderDel "Content-Length";
   CallHeaderSet "Content-Type" "text/plain; charset=utf-8";
   CallHeaderSet "X-Content-Type-Options" "nosniff";
   CallWriteHeader StatusNotFound;
   CallWrite ("404 page not found" +:+ LF)].

Definition ServeHTTP_calls (h : MockHandler) (r : Request.t) (tie : bool)
    : Exec (list WriterCall * MockHandler * option Z) :=
  match findMatchingRule h r with
  | (None, _) => Ret (http_NotFound_calls, h, None)
  | (Some (_, rule), r) =>
      match RequestRule.ResponseDelay rule with
      | Some delay =>
          '(duration, h) ← calculateDelay h delay;
          match select_wait duration (Request.DoneAt r) tie with
          | DelayCompleted => Ret (sendResponse_calls rule, h, Some duration)
          | ContextDone => Ret ([], h, Some duration)
          end
      | None => Ret (sendResponse_calls rule, h, None)
      end
  end.

(** The mock handler as the [next] of the middleware. *)
Definition mock_next (h : MockHandler) (tie : bool) (r : Request.t)
    : Exec (list WriterCall) :=
  '(cs, _, _) ← ServeHTTP_calls h r tie; Ret cs.

End Logging.

(** * Properties *)

(** ** Machine integers *)

Lemma wrap64_in_range (z : Z) : int_min <= z <= int_max -> wrap64 z = z.
Proof.
  unfold wrap64, int_min, int_max. intros Hz.
  rewrite Z.mod_small by lia. lia.
Qed.

Lemma wrap64_bounds (z : Z) : int_min <= wrap64 z <= int_max.
Proof.
  unfold wrap64, int_min, int_max.
  pose proof (Z.mod_pos_bound (z + 2 ^ 63) (2 ^ 64) ltac:(lia)). lia.
Qed.

(** ** The predicate matchers *)

Section Matchers.
Context `{GoStd}.

Lemma first_value_absent : first_value None = EmptyString.
Proof. reflexivity. Qed.

(** A pattern map is satisfied exactly when each of its entries is,
    whatever the order in which the map is visited. *)
Lemma forallb_map_to_list (f : string -> string -> bool) (m : gmap string string) :
  forallb (fun '(k, p) => f k p) (map_to_list m) = true <->
  (forall k p, m !! k = Some p -> f k p = true).
Proof.
  rewrite forallb_forall. split.
  - intros Hall k p Hkp. apply (Hall (k, p)).
    apply list_elem_of_In, elem_of_map_to_list, Hkp.
  - intros Hall [k p] Hin. apply Hall.
    apply elem_of_map_to_list, list_elem_of_In, Hin.
Qed.

Lemma matchesHeaders_entries (m : gmap string string) (hdr : Header) :
  matchesHeaders m hdr = true <->
  (forall name pat, m !! name = Some pat -> matchesPattern pat (Header_Get hdr name) = true).
Proof.
  unfold matchesHeaders. case_bool_decide as Hsize.
  - apply map_size_empty_iff in Hsize. subst m. split; [|done].
    intros _ name pat Hl. by rewrite lookup_empty in Hl.
  - apply (forallb_map_to_list (fun k p => matchesPattern p (Header_Get hdr k))).
Qed.

Lemma matchesQueryParams_entries (m : gmap string string) (q : Values) :
  matchesQueryParams m q = true <->
  (forall name pat, m !! name = Some pat -> matchesPattern pat (Values_Get q name) = true).
Proof.
  unfold matchesQueryParams. case_bool_decide as Hsize.
  - apply map_size_empty_iff in Hsize. subst m. split; [|done].
    intros _ name pat Hl. by rewrite lookup_empty in Hl.
  - apply (forallb_map_to_list (fun k p => matchesPattern p (Values_Get q k))).
Qed.

(** Splitting one entry off a pattern map. *)
Lemma entries_split (P : string -> string -> Prop) (m : gmap string string) name pat :
  m !! name = Some pat ->
  (forall k p, m !! k = Some p -> P k p) <->
  P name pat /\ (forall k p, delete name m !! k = Some p -> P k p).
Proof.
  intros Hl. split.
  - intros Hall. split; [by apply Hall|].
    intros k p [_ Hk]%lookup_delete_Some. by apply Hall.
  - intros [Hn Hrest] k p Hk. destruct (decide (name = k)) as [<-|Hne].
    + rewrite Hl in Hk. by injection Hk as <-.
    + apply Hrest. by apply lookup_delete_Some.
Qed.

Lemma matchesHeaders_split (m : gmap string string) (hdr : Header) name pat :
  m !! name = Some pat ->
  matchesHeaders m hdr = true <->
  matchesPattern pat (Header_Get hdr name) = true /\ matchesHeaders (delete name m) hdr = true.
Proof.
  intros Hl. rewrite !matchesHeaders_entries.
  apply (entries_split (fun k p => matchesPattern p (Header_Get hdr k) = true)), Hl.
Qed.

Lemma matchesQueryParams_split (m : gmap string string) (q : Values) name pat :
  m !! name = Some pat ->
  matchesQueryParams m q = true <->
  matchesPattern pat (Values_Get q name) = true /\ matchesQueryParams (delete name m) q = true.
Proof.
  intros Hl. rewrite !matchesQueryParams_entries.
  apply (entries_split (fun k p => matchesPattern p (Values_Get q k) = true)), Hl.
Qed.

Lemma matchesPattern_invalid (pat v : string) :
  Compile pat = None -> matchesPattern pat v = true <-> v = pat.
Proof.
  intros Hc. unfold matchesPattern. rewrite Hc.
  case_bool_decide; split; congruence.
Qed.

End Matchers.

(** ** The instance [Std.small] has the properties asked of the library *)

Lemma small_invalid_regex : @Compile Std.small "[invalid(regex" = None.
Proof. reflexivity. Qed.

Lemma small_wildcard : @wildcard_matches_all Std.small.
Proof.
  exists (SmallRE.Seq (SmallRE.Star SmallRE.AnyButNL) SmallRE.Eps).
  split; [reflexivity|].
  intros v. cbn. unfold SmallRE.match_string.
  destruct (list_ascii_of_string v); reflexivity.
Qed.

Lemma upper_byte_idempotent (c : ascii) :
  SmallText.upper_byte (SmallText.upper_byte c) = SmallText.upper_byte c.
Proof. destruct c as [[] [] [] [] [] [] [] []]; reflexivity. Qed.

Lemma small_ToUpper_idempotent : @ToUpper_idempotent Std.small.
Proof.
  intros s. cbn. induction s as [|c s IH]; [reflexivity|].
  cbn. by rewrite upper_byte_idempotent, IH.
Qed.

Lemma small_Intn_in_range : @Intn_in_range Std.small.
Proof.
  intros g n Hn. cbn. apply Z.mod_pos_bound, Hn.
Qed.

(** ** Invalid patterns *)

(** C3. An entry of a header or query-parameter pattern map whose pattern
    is not a valid regular expression matches a request value exactly
    when the value is equal to the text of the pattern: the entry test is
    string equality, and the map as a whole matches exactly when the
    request's value for that name equals the pattern and the other
    entries match. *)
Theorem invalid_pattern_is_exact_match `{GoStd}
    (m : gmap string string) (name pat : string) :
  m !! name = Some pat ->
  Compile pat = None ->
  (forall v, matchesPattern pat v = true <-> v = pat) /\
  (forall hdr : Header,
      matchesHeaders m hdr = true <->
      Header_Get hdr name = pat /\ matchesHeaders (delete name m) hdr = true) /\
  (forall q : Values,
      matchesQueryParams m q = true <->
      Values_Get q name = pat /\ matchesQueryParams (delete name m) q = true).
Proof.
  intros Hl Hc. split; [|split].
  - intros v. by apply matchesPattern_invalid.
  - intros hdr. rewrite (matchesHeaders_split m hdr name pat Hl).
    by rewrite matchesPattern_invalid.
  - intros q. rewrite (matchesQueryParams_split m q name pat Hl).
    by rewrite matchesPattern_invalid.
Qed.

(** The pattern of the repository's test, in the instance: it matches
    its own text and nothing else. *)
Lemma invalid_pattern_is_exact_match_witness :
  ({[ "pattern" := "[invalid(regex" ]} : gmap string string) !! "pattern"
    = Some "[invalid(regex" /\
  @Compile Std.small "[invalid(regex" = None /\
  (forall v, @matchesPattern Std.small "[invalid(regex" v = true <-> v = "[invalid(regex").
Proof.
  split; [apply lookup_singleton_eq|]. split; [reflexivity|].
  apply (@invalid_pattern_is_exact_match Std.small
           {[ "pattern" := "[invalid(regex" ]} "pattern" "[invalid(regex").
  - apply lookup_singleton_eq.
  - reflexivity.
Defined.

(** C4. A body pattern that is not empty and not a valid regular
    expression is satisfied by no request, whatever its body: there is no
    fall-back to string equality, and a rule with such a pattern
    satisfies the matching conditions for no request. *)
Theorem invalid_body_pattern_never_matches `{GoStd} (rule : RequestRule.t) (r : Request.t) :
  RequestRule.Body rule <> EmptyString ->
  Compile (RequestRule.Body rule) = None ->
  fst (matchesBody (RequestRule.Body rule) r) = false /\
  satisfies rule r = false.
Proof.
  intros Hne Hc.
  assert (Hbody : fst (matchesBody (RequestRule.Body rule) r) = false).
  { unfold matchesBody. rewrite bool_decide_eq_false_2 by done.
    cbn. destruct (Reader.failing (Request.Body r)); [reflexivity|].
    by rewrite Hc. }
  split; [done|].
  unfold satisfies, satisfies_as. rewrite Hbody. apply andb_false_r.
Qed.

(** Not even the request whose body is the text of the pattern. *)
Lemma invalid_body_pattern_never_matches_witness :
  let rule := RequestRule.mk "/test" ∅ ∅ "POST" (ResponseSpec.mk VNil 200 ∅)
                "[invalid(regex" None in
  let r := Request.mk "POST" "/test" ∅ ∅ (NewReader "[invalid(regex") None in
  RequestRule.Body rule <> EmptyString /\
  @Compile Std.small (RequestRule.Body rule) = None /\
  fst (@matchesBody Std.small (RequestRule.Body rule) r) = false /\
  @satisfies Std.small rule r = false.
Proof.
  intros rule r. split; [discriminate|]. split; [reflexivity|].
  apply (@invalid_body_pattern_never_matches Std.small rule r); [discriminate | reflexivity].
Defined.

(** ** The wildcard and absent values *)

(** C8. A header or query parameter absent from the request is compared
    as the empty string, the wildcard pattern matches every value, the
    empty string included, and so an entry with the wildcard pattern
    never makes a pattern map fail, also when the request lacks the
    header or parameter. *)
Theorem wildcard_and_absent_value `{GoStd} :
  wildcard_matches_all ->
  (forall (m : gmap string string) (hdr : Header) name pat,
      m !! name = Some pat -> hdr !! CanonicalMIMEHeaderKey name = None ->
      Header_Get hdr name = EmptyString /\
      matchesHeaders m hdr
      = matchesPattern pat EmptyString && matchesHeaders (delete name m) hdr) /\
  (forall (m : gmap string string) (q : Values) name pat,
      m !! name = Some pat -> q !! name = None ->
      Values_Get q name = EmptyString /\
      matchesQueryParams m q
      = matchesPattern pat EmptyString && matchesQueryParams (delete name m) q) /\
  (forall v, matchesPattern ".*" v = true) /\
  (forall (m : gmap string string) (hdr : Header) name,
      m !! name = Some ".*" ->
      matchesHeaders m hdr = matchesHeaders (delete name m) hdr) /\
  (forall (m : gmap string string) (q : Values) name,
      m !! name = Some ".*" ->
      matchesQueryParams m q = matchesQueryParams (delete name m) q).
Proof.
  intros (re & Hre & Hall).
  assert (Hwild : forall v, matchesPattern ".*" v = true).
  { intros v. unfold matchesPattern. rewrite Hre. apply Hall. }
  split; [|split; [|split; [|split]]].
  - intros m hdr name pat Hl Habs. split; [unfold Header_Get; by rewrite Habs|].
    apply eq_true_iff_eq. rewrite (matchesHeaders_split m hdr name pat Hl).
    unfold Header_Get at 1. rewrite Habs. cbn. by rewrite andb_true_iff.
  - intros m q name pat Hl Habs. split; [unfold Values_Get; by rewrite Habs|].
    apply eq_true_iff_eq. rewrite (matchesQueryParams_split m q name pat Hl).
    unfold Values_Get at 1. rewrite Habs. cbn. by rewrite andb_true_iff.
  - apply Hwild.
  - intros m hdr name Hl. apply eq_true_iff_eq.
    rewrite (matchesHeaders_split m hdr name _ Hl). rewrite Hwild. tauto.
  - intros m q name Hl. apply eq_true_iff_eq.
    rewrite (matchesQueryParams_split m q name _ Hl). rewrite Hwild. tauto.
Qed.

(** A rule asking for any Content-Type matches a request without headers. *)
Lemma wildcard_and_absent_value_witness :
  @wildcard_matches_all Std.small /\
  @matchesHeaders Std.small {[ "Content-Type" := ".*" ]} ∅ = true.
Proof.
  split; [exact small_wildcard|].
  destruct (@wildcard_and_absent_value Std.small small_wildcard) as (_ & _ & _ & Hh & _).
  rewrite (Hh {[ "Content-Type" := ".*" ]} ∅ "Content-Type" (lookup_singleton_eq _ _)).
  rewrite delete_singleton_eq. reflexivity.
Defined.

(** ** The rule selector *)

Section Selector.
Context `{GoStd}.

(** [matchesBody] leaves the request as readable as it found it. *)
Lemma matchesBody_fields (q : string) (r : Request.t) :
  Request.Method (snd (matchesBody q r)) = Request.Method r /\
  Request.Path (snd (matchesBody q r)) = Request.Path r /\
  Request.Query (snd (matchesBody q r)) = Request.Query r /\
  Request.Header (snd (matchesBody q r)) = Request.Header r /\
  Request.DoneAt (snd (matchesBody q r)) = Request.DoneAt r.
Proof.
  unfold matchesBody. case_bool_decide; [done|].
  cbn. destruct (Reader.failing (Request.Body r)); [done|].
  by destruct (Compile q).
Qed.

Lemma matchesBody_again (p q : string) (r : Request.t) :
  fst (matchesBody p (snd (matchesBody q r))) = fst (matchesBody p r).
Proof.
  destruct r as [me pa qu he [pending failing] ctx].
  unfold matchesBody at 2. case_bool_decide; [done|].
  cbn. destruct failing.
  - unfold matchesBody. by case_bool_decide.
  - by destruct (Compile q).
Qed.

Lemma matchesBody_readable (q : string) (r : Request.t) :
  Reader.failing (Request.Body r) = false -> snd (matchesBody q r) = r.
Proof.
  destruct r as [me pa qu he [pending failing] ctx]. cbn. intros ->.
  unfold matchesBody. case_bool_decide; [done|].
  cbn. by destruct (Compile q).
Qed.

Lemma satisfies_as_again (path method q : string) (rule : RequestRule.t) (r : Request.t) :
  satisfies_as path method rule (snd (matchesBody q r)) = satisfies_as path method rule r.
Proof.
  unfold satisfies_as.
  destruct (matchesBody_fields q r) as (_ & _ & -> & -> & _).
  by rewrite matchesBody_again.
Qed.

(** The loop returns the first rule that satisfies the conditions, and
    none when no rule does. *)
Lemma findMatchingRule_from_spec (rules : list RequestRule.t) (i : nat)
    (path method : string) (r : Request.t) :
  match fst (findMatchingRule_from rules i path method r) with
  | Some (k, rule) =>
      exists j : nat,
        k = (i + j)%nat /\ rules !! j = Some rule /\
        satisfies_as path method rule r = true /\
        forall m rule_m, (m < j)%nat -> rules !! m = Some rule_m ->
                         satisfies_as path method rule_m r = false
  | None => forall rule, rule ∈ rules -> satisfies_as path method rule r = false
  end.
Proof.
  revert i r. induction rules as [|rule rest IH]; intros i r.
  - cbn. intros rule Hin. by apply elem_of_nil in Hin.
  - assert (Hskip : forall r',
      satisfies_as path method rule r = false ->
      (forall x, satisfies_as path method x r' = satisfies_as path method x r) ->
      match fst (findMatchingRule_from rest (S i) path method r') with
      | Some (k, rule') =>
          exists j : nat,
            k = (i + j)%nat /\ (rule :: rest) !! j = Some rule' /\
            satisfies_as path method rule' r = true /\
            forall m rule_m, (m < j)%nat -> (rule :: rest) !! m = Some rule_m ->
                             satisfies_as path method rule_m r = false
      | None => forall x, x ∈ rule :: rest -> satisfies_as path method x r = false
      end).
    { intros r' Hno Hsame. specialize (IH (S i) r').
      destruct (fst (findMatchingRule_from rest (S i) path method r')) as [[k rule']|].
      - destruct IH as (j & -> & Hj & Hsat & Hbefore).
        exists (S j). split; [lia|]. split; [done|]. split; [by rewrite <- Hsame|].
        intros [|m] rule_m Hm Hlook; cbn in Hlook.
        + by injection Hlook as <-.
        + rewrite <- Hsame. apply (Hbefore m); [lia | done].
      - intros x [->|Hin]%elem_of_cons; [done|].
        rewrite <- Hsame. by apply IH. }
    cbn [findMatchingRule_from].
    destruct (bool_decide (RequestRule.Path rule = path)) eqn:Hp; cbn [negb];
      [|apply Hskip; [unfold satisfies_as; by rewrite Hp | done]].
    destruct (bool_decide (RequestRule.Method rule = method)) eqn:Hm; cbn [negb];
      [|apply Hskip; [unfold satisfies_as; by rewrite Hp, Hm | done]].
    destruct (matchesHeaders _ _) eqn:Hh; cbn [negb];
      [|apply Hskip; [unfold satisfies_as; by rewrite Hp, Hm, Hh | done]].
    destruct (matchesQueryParams _ _) eqn:Hq; cbn [negb];
      [|apply Hskip; [unfold satisfies_as; by rewrite Hp, Hm, Hh, Hq | done]].
    destruct (matchesBody (RequestRule.Body rule) r) as [ok r'] eqn:Hb.
    assert (Hr' : r' = snd (matchesBody (RequestRule.Body rule) r)) by by rewrite Hb.
    assert (Hok : satisfies_as path method rule r = ok).
    { unfold satisfies_as. by rewrite Hp, Hm, Hh, Hq, Hb. }
    destruct ok; cbn [negb].
    + cbn [fst]. exists 0%nat. split; [lia|]. split; [done|]. split; [done|].
      intros m rule_m Hlt. lia.
    + apply Hskip; [done|]. intros x. subst r'. apply satisfies_as_again.
Qed.

Lemma findMatchingRule_from_DoneAt (rules : list RequestRule.t) (i : nat)
    (path method : string) (r : Request.t) :
  Request.DoneAt (snd (findMatchingRule_from rules i path method r)) = Request.DoneAt r.
Proof.
  revert i r. induction rules as [|rule rest IH]; intros i r; [done|].
  cbn [findMatchingRule_from].
  repeat (match goal with
          | |- context [if negb ?b then _ else _] => destruct b; cbn [negb]; [|apply IH]
          end).
  destruct (matchesBody (RequestRule.Body rule) r) as [ok r'] eqn:Hb.
  assert (Hd : Request.DoneAt r' = Request.DoneAt r).
  { replace r' with (snd (matchesBody (RequestRule.Body rule) r)) by by rewrite Hb.
    apply matchesBody_fields. }
  destruct ok; cbn [negb]; [done|]. by rewrite IH.
Qed.

(** What [findMatchingRule] returns, in terms of [satisfies]. *)
Lemma findMatchingRule_spec (h : MockHandler) (r : Request.t) :
  match fst (findMatchingRule h r) with
  | Some (k, rule) =>
      Config.Requests (config h) !! k = Some rule /\
      satisfies rule r = true /\
      forall m rule_m, (m < k)%nat -> Config.Requests (config h) !! m = Some rule_m ->
                       satisfies rule_m r = false
  | None => forall rule, rule ∈ Config.Requests (config h) -> satisfies rule r = false
  end.
Proof.
  unfold findMatchingRule, satisfies.
  pose proof (findMatchingRule_from_spec (Config.Requests (config h)) 0
                (Request.Path r) (ToUpper (Request.Method r)) r) as Hspec.
  destruct (fst (findMatchingRule_from _ _ _ _ _)) as [[k rule]|]; [|done].
  destruct Hspec as (j & -> & Hj & Hsat & Hbefore). done.
Qed.

Lemma findMatchingRule_None (h : MockHandler) (r : Request.t) :
  (forall rule, rule ∈ Config.Requests (config h) -> satisfies rule r = false) ->
  fst (findMatchingRule h r) = None.
Proof.
  intros Hnone. pose proof (findMatchingRule_spec h r) as Hspec.
  destruct (fst (findMatchingRule h r)) as [[k rule]|]; [|done].
  destruct Hspec as (Hk & Hsat & _).
  rewrite Hnone in Hsat; [done|]. by eapply list_elem_of_lookup_2.
Qed.

End Selector.

(** C2. When more than one rule of the list satisfies all matching
    conditions, the selector returns the one that comes first in the
    list: the rule returned satisfies the conditions, no rule before it
    does, and so it is never a later one of two satisfying rules. *)
Theorem first_match_wins `{GoStd} (h : MockHandler) (r : Request.t)
    (i j : nat) (rule_i rule_j : RequestRule.t) :
  Config.Requests (config h) !! i = Some rule_i ->
  Config.Requests (config h) !! j = Some rule_j ->
  (i < j)%nat ->
  satisfies rule_i r = true ->
  satisfies rule_j r = true ->
  exists k rule_k,
    fst (findMatchingRule h r) = Some (k, rule_k) /\
    Config.Requests (config h) !! k = Some rule_k /\
    satisfies rule_k r = true /\
    (k <= i)%nat /\ k <> j /\
    (forall m rule_m, (m < k)%nat -> Config.Requests (config h) !! m = Some rule_m ->
                      satisfies rule_m r = false).
Proof.
  intros Hi Hj Hij Hsi Hsj.
  pose proof (findMatchingRule_spec h r) as Hspec.
  destruct (fst (findMatchingRule h r)) as [[k rule_k]|].
  - destruct Hspec as (Hk & Hsat & Hbefore).
    assert (k <= i)%nat.
    { destruct (decide (k <= i)%nat) as [|Hgt]; [done|].
      rewrite (Hbefore i rule_i) in Hsi; [done | lia | done]. }
    exists k, rule_k. split; [done|]. split; [done|]. split; [done|].
    split; [done|]. split; [lia | done].
  - rewrite Hspec in Hsi; [done|]. by eapply list_elem_of_lookup_2.
Qed.

(** Two rules for the same path and method: the first one is returned. *)
Lemma first_match_wins_witness :
  let first := RequestRule.mk "/ping" ∅ ∅ "GET" (ResponseSpec.mk (VString "pong") 200 ∅)
                 EmptyString None in
  let second := RequestRule.mk "/ping" ∅ ∅ "GET" (ResponseSpec.mk (VString "late") 201 ∅)
                  EmptyString None in
  let h := @NewMockHandlerWithRand Std.small
             (Config.mk (ServerConfig.mk 8080) [first; second]) 42 in
  let r := Request.mk "get" "/ping" ∅ ∅ (NewReader EmptyString) None in
  exists k rule_k,
    fst (@findMatchingRule Std.small h r) = Some (k, rule_k) /\
    Config.Requests (@config Std.small h) !! k = Some rule_k /\
    @satisfies Std.small rule_k r = true /\
    (k <= 0)%nat /\ k <> 1%nat /\
    (forall m rule_m, (m < k)%nat -> Config.Requests (@config Std.small h) !! m = Some rule_m ->
                      @satisfies Std.small rule_m r = false).
Proof.
  intros first second h r.
  apply (@first_match_wins Std.small h r 0%nat 1%nat first second);
    [reflexivity | reflexivity | lia | reflexivity | reflexivity].
Defined.

(** ** The dispatcher on a request no rule matches *)

Lemma WriteHeader_fresh (w : ResponseWriter.t) (code : Z) :
  ResponseWriter.wroteHeader w = false -> 100 <= code <= 999 ->
  WriteHeader w code
  = Ret (ResponseWriter.mk (ResponseWriter.HeaderMap w) true code (ResponseWriter.Body w)).
Proof.
  intros Hw Hc. unfold WriteHeader. rewrite Hw.
  destruct (code <? 100) eqn:H1; [lia|]. destruct (999 <? code) eqn:H2; [lia|]. done.
Qed.

(** C1, as amended. For a request that no configured rule satisfies, the
    dispatcher answers as [http.NotFound] does: status 404 and the
    plain-text body [404 page not found] followed by a line feed; the
    random source is not used and nothing is waited for. *)
Theorem no_match_is_not_found `{GoStd} (h : MockHandler) (w : ResponseWriter.t)
    (r : Request.t) (tie : bool) :
  (forall rule, rule ∈ Config.Requests (config h) -> satisfies rule r = false) ->
  ResponseWriter.wroteHeader w = false ->
  exists w',
    ServeHTTP h w r tie = Ret (mkServed w' h None) /\
    ResponseWriter.wroteHeader w' = true /\
    ResponseWriter.Code w' = 404 /\
    ResponseWriter.Body w' = ResponseWriter.Body w +:+ "404 page not found" +:+ LF.
Proof.
  intros Hnone Hfresh. unfold ServeHTTP.
  pose proof (findMatchingRule_None h r Hnone) as Hfind.
  destruct (findMatchingRule h r) as [found r']. cbn in Hfind. subst found.
  unfold http_NotFound, http_Error.
  rewrite WriteHeader_fresh; [|done|unfold StatusNotFound; lia].
  eexists. split; [reflexivity|]. done.
Qed.

Lemma no_match_is_not_found_witness :
  let rule := RequestRule.mk "/q" {[ "Content-Type" := "text/plain" ]} ∅ "GET"
                (ResponseSpec.mk VNil 200 ∅) EmptyString None in
  let h := @NewMockHandlerWithRand Std.small (Config.mk (ServerConfig.mk 8080) [rule]) 42 in
  let r := Request.mk "GET" "/not-exists" ∅ {[ "Content-Type" := ["text/plain"] ]}
             (NewReader EmptyString) None in
  exists w',
    @ServeHTTP Std.small h NewRecorder r false = Ret (mkServed w' h None) /\
    ResponseWriter.wroteHeader w' = true /\
    ResponseWriter.Code w' = 404 /\
    ResponseWriter.Body w' = EmptyString +:+ "404 page not found" +:+ LF.
Proof.
  intros rule h r.
  apply (@no_match_is_not_found Std.small h NewRecorder r false); [|reflexivity].
  intros x Hx. apply list_elem_of_singleton in Hx. subst x. reflexivity.
Defined.

(** C1, as stated, fails: no rule matches the path [/unknown], and the
    body of the 404 response is not empty. *)
Lemma not_found_body_is_not_empty :
  let rule := RequestRule.mk "/q" ∅ ∅ "GET" (ResponseSpec.mk VNil 200 ∅) EmptyString None in
  let h := @NewMockHandlerWithRand Std.small (Config.mk (ServerConfig.mk 8080) [rule]) 42 in
  let r := Request.mk "GET" "/unknown" ∅ ∅ (NewReader EmptyString) None in
  (forall x, x ∈ Config.Requests (@config Std.small h) -> @satisfies Std.small x r = false) /\
  exists served,
    @ServeHTTP Std.small h NewRecorder r false = Ret served /\
    ResponseWriter.Code (writer served) = 404 /\
    ResponseWriter.Body (writer served) = "404 page not found" +:+ LF /\
    ResponseWriter.Body (writer served) <> EmptyString.
Proof.
  intros rule h r. split.
  - intros x Hx. apply list_elem_of_singleton in Hx. subst x. reflexivity.
  - eexists. split; [reflexivity|]. cbn. split; [reflexivity|]. split; [reflexivity|].
    discriminate.
Qed.

(** ** The method condition *)

Lemma setDefaults_rule_Method_upper `{GoStd} (raw : RequestRule.t) :
  ToUpper_idempotent ->
  ToUpper (RequestRule.Method (setDefaults_rule raw)) = RequestRule.Method (setDefaults_rule raw).
Proof. intros Hidem. cbn. apply Hidem. Qed.

(** C5. For a rule of a configuration that went through [setDefaults],
    the method condition of the selector holds exactly when the method
    of the rule and the method of the request are equal once both are
    upper-cased; the selector's conditions are the conjunction with that
    comparison in the place of the method test. *)
Theorem method_is_case_insensitive `{GoStd} (c : Config.t) (rule : RequestRule.t)
    (r : Request.t) :
  ToUpper_idempotent ->
  rule ∈ Config.Requests (setDefaults c) ->
  (method_matches rule r = true <->
   ToUpper (RequestRule.Method rule) = ToUpper (Request.Method r)) /\
  satisfies rule r =
    bool_decide (RequestRule.Path rule = Request.Path r)
    && bool_decide (ToUpper (RequestRule.Method rule) = ToUpper (Request.Method r))
    && matchesHeaders (RequestRule.Headers rule) (Request.Header r)
    && matchesQueryParams (RequestRule.QueryParams rule) (Request.Query r)
    && fst (matchesBody (RequestRule.Body rule) r).
Proof.
  intros Hidem Hin. cbn in Hin.
  apply list_elem_of_fmap in Hin as (raw & -> & _).
  pose proof (setDefaults_rule_Method_upper raw Hidem) as Hup.
  split.
  - unfold method_matches. rewrite bool_decide_eq_true. by rewrite Hup.
  - unfold satisfies, satisfies_as. by rewrite Hup.
Qed.

(** A rule written with [method: post] answers a request whose method is
    spelled [Post]. *)
Lemma method_is_case_insensitive_witness :
  let raw := RequestRule.mk "/bar" ∅ ∅ "post" (ResponseSpec.mk VNil 0 ∅) EmptyString None in
  let c := Config.mk (ServerConfig.mk 0) [raw] in
  let rule := @setDefaults_rule Std.small raw in
  let r := Request.mk "Post" "/bar" ∅ ∅ (NewReader "hello") None in
  @ToUpper_idempotent Std.small /\
  rule ∈ Config.Requests (@setDefaults Std.small c) /\
  RequestRule.Method rule = "POST" /\
  (@method_matches Std.small rule r = true <->
   @ToUpper Std.small (RequestRule.Method rule) = @ToUpper Std.small (Request.Method r)).
Proof.
  intros raw c rule r.
  split; [exact small_ToUpper_idempotent|]. split; [apply list_elem_of_singleton; reflexivity|].
  split; [reflexivity|].
  apply (@method_is_case_insensitive Std.small c rule r small_ToUpper_idempotent).
  apply list_elem_of_singleton. reflexivity.
Defined.

(** The comparison upper-cases the method of the request only: a rule
    that did not go through [setDefaults] and spells its method in lower
    case is matched by no request. *)
Lemma lower_case_rule_method_never_matches `{GoStd} (rule : RequestRule.t) (r : Request.t) :
  ToUpper_idempotent ->
  ToUpper (RequestRule.Method rule) <> RequestRule.Method rule ->
  method_matches rule r = false.
Proof.
  intros Hidem Hlow. unfold method_matches. apply bool_decide_eq_false.
  intros Heq. apply Hlow. rewrite Heq. apply Hidem.
Qed.

(** ** Validation of the delay *)

Lemma validate_delay_ok (i : nat) (delay : ResponseDelay.t) :
  validate_delay i delay = None ->
  0 <= ResponseDelay.Min delay <= ResponseDelay.Max delay /\
  ResponseDelay.Max delay <= MaxResponseDelayMs.
Proof.
  unfold validate_delay.
  destruct (ResponseDelay.Min delay <? 0) eqn:H1; [done|].
  destruct (ResponseDelay.Max delay <? 0) eqn:H2; [done|].
  destruct (ResponseDelay.Max delay <? ResponseDelay.Min delay) eqn:H3; [done|].
  destruct (MaxResponseDelayMs <? ResponseDelay.Max delay) eqn:H4; [done|].
  intros _. lia.
Qed.

Lemma validate_rules_delay (i : nat) (rules : list RequestRule.t)
    (rule : RequestRule.t) (delay : ResponseDelay.t) :
  validate_rules i rules = None ->
  rule ∈ rules ->
  RequestRule.ResponseDelay rule = Some delay ->
  0 <= ResponseDelay.Min delay <= ResponseDelay.Max delay /\
  ResponseDelay.Max delay <= MaxResponseDelayMs.
Proof.
  revert i. induction rules as [|x rest IH]; intros i Hv Hin Hd.
  - by apply elem_of_nil in Hin.
  - cbn in Hv. destruct (validate_rule i x) eqn:Hx; [done|].
    apply elem_of_cons in Hin as [->|Hin]; [|by eapply IH].
    unfold validate_rule in Hx. rewrite Hd in Hx.
    repeat case_match; try done. by eapply validate_delay_ok.
Qed.

(** Every delay of a configuration that [validate] accepts is within
    [0, MaxResponseDelayMs], far below [MaxDurationMs]. *)
Lemma validate_delay_range (c : Config.t) (rule : RequestRule.t) (delay : ResponseDelay.t) :
  validate c = None ->
  rule ∈ Config.Requests c ->
  RequestRule.ResponseDelay rule = Some delay ->
  0 <= ResponseDelay.Min delay <= ResponseDelay.Max delay /\
  ResponseDelay.Max delay <= MaxResponseDelayMs /\
  MaxResponseDelayMs <= MaxDurationMs.
Proof.
  unfold validate. intros Hv Hin Hd.
  destruct (ServerConfig.Port (Config.Server c) =? 0); [done|].
  destruct (validate_rules_delay 0 _ rule delay Hv Hin Hd) as [? ?].
  split; [done|]. split; [done|]. by vm_compute.
Qed.

(** ** The delay calculator *)

Section Delay.
Context `{GoStd}.

Lemma MaxDurationMs_value : MaxDurationMs = 9223372036854.
Proof. reflexivity. Qed.

Lemma int_mul_Millisecond (ms : Z) :
  - MaxDurationMs <= ms <= MaxDurationMs -> int_mul ms Millisecond = ms * Millisecond.
Proof.
  rewrite MaxDurationMs_value. intros Hms. unfold int_mul, Millisecond.
  apply wrap64_in_range. unfold int_min, int_max. lia.
Qed.

(** When [Max] does not exceed [Min] the random source is left alone. *)
Lemma calculateDelay_fixed (h : MockHandler) (delay : ResponseDelay.t) :
  ResponseDelay.Max delay <= ResponseDelay.Min delay ->
  calculateDelay h delay = Ret (int_mul (ResponseDelay.Min delay) Millisecond, h).
Proof.
  intros Hle. unfold calculateDelay.
  destruct (ResponseDelay.Min delay <? ResponseDelay.Max delay) eqn:Hlt; [lia|]. done.
Qed.

(** Otherwise one number is drawn, below the width of the range. *)
Lemma calculateDelay_drawn (h : MockHandler) (delay : ResponseDelay.t) :
  ResponseDelay.Min delay < ResponseDelay.Max delay ->
  - MaxDurationMs <= ResponseDelay.Min delay ->
  ResponseDelay.Max delay <= MaxDurationMs ->
  let n := ResponseDelay.Max delay - ResponseDelay.Min delay + 1 in
  calculateDelay h delay
  = Ret (int_mul (int_add (ResponseDelay.Min delay) (fst (draw (rand h) n))) Millisecond,
         NewMockHandlerWithRand (config h) (snd (draw (rand h) n))).
Proof.
  rewrite MaxDurationMs_value. intros Hlt Hmin Hmax n. unfold calculateDelay.
  destruct (ResponseDelay.Min delay <? ResponseDelay.Max delay) eqn:Hlt'; [|lia].
  assert (Hn : int_add (int_sub (ResponseDelay.Max delay) (ResponseDelay.Min delay)) 1 = n).
  { unfold int_add, int_sub, n.
    rewrite (wrap64_in_range (_ - _)) by (unfold int_min, int_max; lia).
    apply wrap64_in_range. unfold int_min, int_max. lia. }
  rewrite Hn. unfold Intn.
  destruct (n <=? 0) eqn:Hpos; [unfold n in Hpos; lia|].
  cbn. by destruct (draw (rand h) n).
Qed.

End Delay.

(** C10, as amended. For every delay pair whose bounds are within
    [MaxDurationMs] in absolute value, pairs with [Max < Min] included,
    the calculator returns a duration and does not panic; and whenever
    [Max <= Min] it returns exactly [Min] milliseconds and leaves the
    random source as it was. *)
Theorem calculateDelay_total `{GoStd} (h : MockHandler) (delay : ResponseDelay.t) :
  - MaxDurationMs <= ResponseDelay.Min delay <= MaxDurationMs ->
  - MaxDurationMs <= ResponseDelay.Max delay <= MaxDurationMs ->
  (exists duration h', calculateDelay h delay = Ret (duration, h')) /\
  (ResponseDelay.Max delay <= ResponseDelay.Min delay ->
   calculateDelay h delay = Ret (ResponseDelay.Min delay * Millisecond, h)).
Proof.
  intros Hmin Hmax. split.
  - destruct (decide (ResponseDelay.Min delay < ResponseDelay.Max delay)) as [Hlt|Hge].
    + rewrite calculateDelay_drawn by lia. eauto.
    + rewrite calculateDelay_fixed by lia. eauto.
  - intros Hle. rewrite calculateDelay_fixed by done.
    by rewrite int_mul_Millisecond.
Qed.

(** A pair that breaks the precondition: [Max] below [Min]. *)
Lemma calculateDelay_total_witness :
  let h := @NewMockHandlerWithRand Std.small (Config.mk (ServerConfig.mk 8080) []) 42 in
  let delay := ResponseDelay.mk 150 50 in
  (exists duration h', @calculateDelay Std.small h delay = Ret (duration, h')) /\
  (50 <= 150 -> @calculateDelay Std.small h delay = Ret (150 * Millisecond, h)).
Proof.
  intros h delay.
  apply (@calculateDelay_total Std.small h delay); rewrite MaxDurationMs_value; cbn; lia.
Defined.

(** C10, as stated, fails: with [Min = 0] and [Max] the largest [int],
    the width [Max - Min + 1] wraps around to the least [int], and
    [Intn] panics. *)
Lemma calculateDelay_panics_on_wide_range :
  @calculateDelay Std.small
     (@NewMockHandlerWithRand Std.small (Config.mk (ServerConfig.mk 8080) []) 42)
     (ResponseDelay.mk 0 9223372036854775807)
  = Panic "invalid argument to Intn".
Proof. reflexivity. Qed.

(** ** The response synthesizer *)

Section Synthesizer.
Context `{GoStd}.

(** Setting response headers touches neither the status nor the body. *)
Lemma set_headers_keeps (hs : list (string * string)) (w : ResponseWriter.t) :
  let w' := foldl (fun w '(key, value) => Header_Set w key value) w hs in
  ResponseWriter.wroteHeader w' = ResponseWriter.wroteHeader w /\
  ResponseWriter.Code w' = ResponseWriter.Code w /\
  ResponseWriter.Body w' = ResponseWriter.Body w.
Proof.
  revert w. induction hs as [|[key value] hs IH]; intros w; [done|].
  cbn. destruct (IH (Header_Set w key value)) as (-> & -> & ->). done.
Qed.

Lemma WriteHeader_valid (w : ResponseWriter.t) (code : Z) :
  100 <= code <= 999 ->
  exists w', WriteHeader w code = Ret w' /\
    ResponseWriter.Body w' = ResponseWriter.Body w /\
    ResponseWriter.wroteHeader w' = true /\
    (ResponseWriter.wroteHeader w = false -> ResponseWriter.Code w' = code).
Proof.
  intros Hc. destruct (ResponseWriter.wroteHeader w) eqn:Hw.
  - exists w. unfold WriteHeader. rewrite Hw. done.
  - rewrite WriteHeader_fresh by done. eexists. split; [reflexivity|]. done.
Qed.

(** Without a configured delay, [writeResponse] is the synthesizer alone. *)
Lemma writeResponse_no_delay (h : MockHandler) (w : ResponseWriter.t) (r : Request.t)
    (rule : RequestRule.t) (tie : bool) :
  RequestRule.ResponseDelay rule = None ->
  writeResponse h w r rule tie = (w' ← sendResponse w rule; Ret (mkServed w' h None)).
Proof. intros Hd. unfold writeResponse. by rewrite Hd. Qed.

(** The calculator has run exactly when a duration was handed to the timer. *)
Lemma writeResponse_waited (h : MockHandler) (w : ResponseWriter.t) (r : Request.t)
    (rule : RequestRule.t) (tie : bool) (served : Served) :
  writeResponse h w r rule tie = Ret served ->
  match RequestRule.ResponseDelay rule with
  | None => waited served = None /\ handler served = h
  | Some delay =>
      exists duration,
        calculateDelay h delay = Ret (duration, handler served) /\
        waited served = Some duration
  end.
Proof.
  unfold writeResponse. destruct (RequestRule.ResponseDelay rule) as [delay|].
  - destruct (calculateDelay h delay) as [[duration h']|msg]; cbn; [|done].
    destruct (select_wait _ _ _).
    + destruct (sendResponse w rule); cbn; [|done].
      intros [= <-]. by exists duration.
    + intros [= <-]. by exists duration.
  - destruct (sendResponse w rule); cbn; [|done]. by intros [= <-].
Qed.

End Synthesizer.

(** C6, as amended. For every delay configuration with
    [0 <= Min <= Max <= MaxDurationMs] (every validated configuration is
    one, since [MaxResponseDelayMs] is far below): the calculator returns
    a whole number of milliseconds within [Min, Max], which is [Min]
    itself, with no number drawn, when [Min = Max]; and for a rule
    without [responseDelay] the calculator is not run, no timer is
    started and the synthesizer runs at once. *)
Theorem calculateDelay_within_range `{GoStd} (h : MockHandler) (delay : ResponseDelay.t) :
  Intn_in_range ->
  0 <= ResponseDelay.Min delay ->
  ResponseDelay.Min delay <= ResponseDelay.Max delay ->
  ResponseDelay.Max delay <= MaxDurationMs ->
  (exists ms h',
      calculateDelay h delay = Ret (ms * Millisecond, h') /\
      ResponseDelay.Min delay <= ms <= ResponseDelay.Max delay /\
      (ResponseDelay.Min delay = ResponseDelay.Max delay ->
       ms = ResponseDelay.Min delay /\ h' = h)) /\
  (forall w r rule tie,
      RequestRule.ResponseDelay rule = None ->
      writeResponse h w r rule tie = (w' ← sendResponse w rule; Ret (mkServed w' h None)) /\
      forall served, writeResponse h w r rule tie = Ret served ->
                     waited served = None /\ handler served = h).
Proof.
  intros Hrand Hmin Hle Hmax. pose proof MaxDurationMs_value as HB. split.
  - destruct (decide (ResponseDelay.Min delay = ResponseDelay.Max delay)) as [Heq|Hne].
    + exists (ResponseDelay.Min delay), h.
      rewrite calculateDelay_fixed by lia. rewrite int_mul_Millisecond by lia.
      split; [done|]. split; [lia | done].
    + set (n := ResponseDelay.Max delay - ResponseDelay.Min delay + 1).
      pose proof (Hrand (rand h) n ltac:(unfold n; lia)) as Hk. fold n in Hk.
      exists (ResponseDelay.Min delay + fst (draw (rand h) n)),
             (NewMockHandlerWithRand (config h) (snd (draw (rand h) n))).
      rewrite calculateDelay_drawn by lia. fold n.
      assert (Hadd : int_add (ResponseDelay.Min delay) (fst (draw (rand h) n))
                     = ResponseDelay.Min delay + fst (draw (rand h) n)).
      { apply wrap64_in_range. unfold int_min, int_max, n in *. lia. }
      rewrite Hadd. rewrite int_mul_Millisecond by (unfold n in *; lia).
      split; [done|]. split; [unfold n in *; lia | done].
  - intros w r rule tie Hd. split; [by apply writeResponse_no_delay|].
    intros served Hrun. apply writeResponse_waited in Hrun. by rewrite Hd in Hrun.
Qed.

(** The range of the repository's tests, 50 to 150 milliseconds. *)
Lemma calculateDelay_within_range_witness :
  let h := @NewMockHandlerWithRand Std.small (Config.mk (ServerConfig.mk 8080) []) 42 in
  let delay := ResponseDelay.mk 50 150 in
  @Intn_in_range Std.small /\ 0 <= 50 /\ 50 <= 150 /\ 150 <= MaxDurationMs /\
  exists ms h',
    @calculateDelay Std.small h delay = Ret (ms * Millisecond, h') /\
    50 <= ms <= 150 /\ (50 = 150 -> ms = 50 /\ h' = h).
Proof.
  intros h delay.
  split; [exact small_Intn_in_range|]. split; [lia|]. split; [lia|].
  split; [by vm_compute|].
  apply (@calculateDelay_within_range Std.small h delay small_Intn_in_range);
    [cbn; lia | cbn; lia | by vm_compute].
Defined.

(** C6, as stated, fails: with [Min = Max] one millisecond above
    [MaxDurationMs], the conversion to nanoseconds wraps around and the
    duration returned is negative, not [Min] milliseconds. *)
Lemma calculateDelay_overflows_duration :
  let h := @NewMockHandlerWithRand Std.small (Config.mk (ServerConfig.mk 8080) []) 42 in
  let delay := ResponseDelay.mk 9223372036855 9223372036855 in
  0 <= ResponseDelay.Min delay <= ResponseDelay.Max delay /\
  ResponseDelay.Min delay = ResponseDelay.Max delay /\
  @calculateDelay Std.small h delay = Ret (- 9223372036854551616, h) /\
  - 9223372036854551616 <> ResponseDelay.Min delay * Millisecond.
Proof.
  intros h delay. split; [cbn; lia|]. split; [reflexivity|].
  split; [reflexivity | by vm_compute].
Qed.

(** C7. Once the headers are set and the status code is written, the
    synthesizer writes the body thus: the bytes of a string body as they
    are, with nothing added; the JSON serialization of a body that is
    neither nil nor a string (and nothing when there is none to write,
    the serializer having failed); and no byte at all for a nil body. *)
Theorem sendResponse_body `{GoStd} (w : ResponseWriter.t) (rule : RequestRule.t) :
  100 <= ResponseSpec.StatusCode (RequestRule.Response rule) <= 999 ->
  exists w',
    sendResponse w rule = Ret w' /\
    (ResponseWriter.wroteHeader w = false ->
     ResponseWriter.Code w' = ResponseSpec.StatusCode (RequestRule.Response rule)) /\
    match ResponseSpec.Body (RequestRule.Response rule) with
    | VNil => ResponseWriter.Body w' = ResponseWriter.Body w
    | VString s => ResponseWriter.Body w' = ResponseWriter.Body w +:+ s
    | v =>
        match Marshal v with
        | Some data => ResponseWriter.Body w' = ResponseWriter.Body w +:+ data
        | None => ResponseWriter.Body w' = ResponseWriter.Body w
        end
    end.
Proof.
  intros Hcode. unfold sendResponse.
  set (w1 := foldl _ w _).
  destruct (set_headers_keeps
              (map_to_list (ResponseSpec.Headers (RequestRule.Response rule))) w)
    as (Hwrote & _ & Hbody).
  fold w1 in Hwrote, Hbody.
  destruct (WriteHeader_valid w1 _ Hcode) as (w2 & -> & Hbody2 & Hw2 & Hcode2).
  rewrite Hwrote in Hcode2. rewrite Hbody in Hbody2. cbn.
  assert (Hwritten : forall data,
    (ResponseWriter.wroteHeader w = false ->
     ResponseWriter.Code (WriteBytes w2 data)
     = ResponseSpec.StatusCode (RequestRule.Response rule)) /\
    ResponseWriter.Body (WriteBytes w2 data) = ResponseWriter.Body w +:+ data).
  { intros data. unfold WriteBytes. cbn. rewrite Hw2, Hbody2. done. }
  destruct (ResponseSpec.Body (RequestRule.Response rule)) as [|s|b|z|items|fields];
    [by exists w2 | by exists (WriteBytes w2 s) | ..];
    (unfold writeBody; destruct (Marshal _) as [data|];
     [by exists (WriteBytes w2 data) | by exists w2]).
Qed.

(** The structured body of the repository's test is written as JSON. *)
Lemma sendResponse_body_witness :
  let rule := RequestRule.mk "/foo" ∅ ∅ "GET"
                (ResponseSpec.mk (VMap [("message", VString "ok")]) 200 ∅)
                EmptyString None in
  100 <= 200 <= 999 /\
  @Marshal Std.small (VMap [("message", VString "ok")])
    = Some ("{" +:+ SmallJSON.quote "message" +:+ ":" +:+ SmallJSON.quote "ok" +:+ "}") /\
  exists w',
    @sendResponse Std.small NewRecorder rule = Ret w' /\
    (false = false -> ResponseWriter.Code w' = 200) /\
    ResponseWriter.Body w'
    = EmptyString +:+ "{" +:+ SmallJSON.quote "message" +:+ ":" +:+ SmallJSON.quote "ok" +:+ "}".
Proof.
  intros rule. split; [lia|]. split; [reflexivity|].
  apply (@sendResponse_body Std.small NewRecorder rule). cbn. lia.
Defined.

(** ** Cancellation during the delay *)

Lemma select_wait_cancelled (duration t : Z) (tie : bool) :
  0 <= t < duration -> select_wait duration (Some t) tie = ContextDone.
Proof.
  intros Ht. unfold select_wait.
  destruct (Z.max 0 t <? Z.max 0 duration) eqn:Hlt; [done | lia].
Qed.

(** C9. For a matched rule with a configured delay, if the request's
    context is done while the handler waits, that is before the timer
    fires, the handler returns with the response writer as it received
    it: no header set, no status code written, no body byte written. *)
Theorem cancelled_wait_writes_nothing `{GoStd} (h h' : MockHandler)
    (w : ResponseWriter.t) (r : Request.t) (tie : bool) (k : nat) (rule : RequestRule.t)
    (delay : ResponseDelay.t) (duration t : Z) :
  fst (findMatchingRule h r) = Some (k, rule) ->
  RequestRule.ResponseDelay rule = Some delay ->
  calculateDelay h delay = Ret (duration, h') ->
  Request.DoneAt r = Some t ->
  0 <= t < duration ->
  writeResponse h w r rule tie = Ret (mkServed w h' (Some duration)) /\
  ServeHTTP h w r tie = Ret (mkServed w h' (Some duration)).
Proof.
  intros Hfind Hdelay Hcalc Hdone Ht.
  assert (Hwr : forall r', Request.DoneAt r' = Some t ->
                           writeResponse h w r' rule tie = Ret (mkServed w h' (Some duration))).
  { intros r' Hdone'. unfold writeResponse. rewrite Hdelay, Hcalc. cbn.
    by rewrite Hdone', select_wait_cancelled. }
  split; [by apply Hwr|].
  unfold ServeHTTP.
  pose proof (findMatchingRule_from_DoneAt (Config.Requests (config h)) 0
                (Request.Path r) (ToUpper (Request.Method r)) r) as Hctx.
  fold (findMatchingRule h r) in Hctx.
  destruct (findMatchingRule h r) as [found r']. cbn in Hfind, Hctx. subst found.
  apply Hwr. by rewrite Hctx.
Qed.

(** A client that goes away 5 ms into a delay of 100 ms. *)
Lemma cancelled_wait_writes_nothing_witness :
  let rule := RequestRule.mk "/delayed" ∅ ∅ "GET"
                (ResponseSpec.mk (VString "delayed response") 200 {[ "X-Test" := "yes" ]})
                EmptyString (Some (ResponseDelay.mk 100 100)) in
  let h := @NewMockHandlerWithRand Std.small (Config.mk (ServerConfig.mk 8080) [rule]) 42 in
  let r := Request.mk "GET" "/delayed" ∅ ∅ (NewReader EmptyString) (Some 5000000) in
  @writeResponse Std.small h NewRecorder r rule false
    = Ret (mkServed NewRecorder h (Some 100000000)) /\
  @ServeHTTP Std.small h NewRecorder r false
    = Ret (mkServed NewRecorder h (Some 100000000)).
Proof.
  intros rule h r.
  apply (@cancelled_wait_writes_nothing Std.small h h NewRecorder r false 0%nat rule
           (ResponseDelay.mk 100 100) 100000000 5000000);
    [reflexivity | reflexivity | reflexivity | reflexivity | lia].
Defined.

(** ** The repository's tests, run in the instance [Std.small] *)

Module Tests.

#[local] Existing Instance Std.small.
Import Fixtures.

(** TestMockHandler_ExactMatch: the pattern is searched for in the value. *)
Example ExactMatch :
  recorded (performRequest
    (handler_of [rule_of "/foo" "GET" {[ "Content-Type" := "application/json" ]} ∅ 200
                   (VMap [("message", VString "ok")])])
    "GET" "/foo" ∅ [("Content-Type", "application/json; charset=utf-8")] EmptyString)
  = Some (200, "{" +:+ SmallJSON.quote "message" +:+ ":" +:+ SmallJSON.quote "ok" +:+ "}").
Proof. vm_compute. reflexivity. Qed.

(** TestMockHandler_WildcardAny *)
Example WildcardAny :
  recorded (performRequest
    (handler_of [rule_of "/bar" "POST" {[ "Content-Type" := ".*" ]} ∅ 201 VNil])
    "POST" "/bar" ∅ [("Content-Type", "text/plain")] "hello")
  = Some (201, EmptyString).
Proof. vm_compute. reflexivity. Qed.

(** TestMockHandler_WildcardSubtype *)
Example WildcardSubtype :
  recorded (performRequest
    (handler_of [rule_of "/baz" "PUT" {[ "Content-Type" := "application/.*" ]} ∅ 204 VNil])
    "PUT" "/baz" ∅ [("Content-Type", "application/json")] EmptyString)
  = Some (204, EmptyString).
Proof. vm_compute. reflexivity. Qed.

(** TestMockHandler_NotFound, with the body the test does not look at. *)
Example NotFound :
  recorded (performRequest
    (handler_of [rule_of "/q" "GET" {[ "Content-Type" := "text/plain" ]} ∅ 200 VNil])
    "GET" "/not-exists" ∅ [("Content-Type", "text/plain")] EmptyString)
  = Some (404, "404 page not found" +:+ LF).
Proof. vm_compute. reflexivity. Qed.

(** The end-to-end example of a rule for [/ping]. *)
Example Ping :
  recorded (performRequest
    (handler_of [rule_of "/ping" "GET" ∅ ∅ 200 (VString "pong")])
    "GET" "/ping" ∅ [] EmptyString)
  = Some (200, "pong").
Proof. vm_compute. reflexivity. Qed.

(** A query parameter that must be a number: [page=abc] is not matched,
    [page=3&extra=x] is, the extra parameter being ignored. *)
Example QueryParamRegex :
  let h := handler_of [rule_of "/search" "GET" ∅ {[ "page" := "[0-9]+" ]} 200
                         (VString "results")] in
  recorded (performRequest h "GET" "/search" {[ "page" := ["abc"] ]} [] EmptyString)
  = Some (404, "404 page not found" +:+ LF) /\
  recorded (performRequest h "GET" "/search" {[ "page" := ["3"]; "extra" := ["x"] ]} []
              EmptyString)
  = Some (200, "results").
Proof. split; vm_compute; reflexivity. Qed.

(** TestMockHandler_QueryParamMissing: the absent parameter is compared as
    the empty string, which has no digit. *)
Example QueryParamMissing :
  recorded (performRequest
    (handler_of [rule_of "/test" "GET" ∅ {[ "id" := "[0-9]+" ]} 200 VNil])
    "GET" "/test" ∅ [] EmptyString)
  = Some (404, "404 page not found" +:+ LF).
Proof. vm_compute. reflexivity. Qed.

(** TestMockHandler_QueryParamInvalidRegexFallsBackToExact, and a value
    that differs from the pattern. *)
Example QueryParamInvalidRegex :
  let h := handler_of [rule_of "/test" "GET" ∅ {[ "pattern" := "[invalid(regex" ]} 200 VNil] in
  recorded (performRequest h "GET" "/test" {[ "pattern" := ["[invalid(regex"] ]} []
              EmptyString)
  = Some (200, EmptyString) /\
  recorded (performRequest h "GET" "/test" {[ "pattern" := ["invalid"] ]} [] EmptyString)
  = Some (404, "404 page not found" +:+ LF).
Proof. split; vm_compute; reflexivity. Qed.

(** An invalid body pattern matches no body, its own text included. *)
Example BodyInvalidRegex :
  recorded (performRequest
    (handler_of [RequestRule.mk "/test" ∅ ∅ "POST" (ResponseSpec.mk VNil 200 ∅)
                   "[invalid(regex" None])
    "POST" "/test" ∅ [] "[invalid(regex")
  = Some (404, "404 page not found" +:+ LF).
Proof. vm_compute. reflexivity. Qed.

(** TestMockHandler_CalculateDelay: the durations, in milliseconds. *)
Example CalculateDelay :
  let ms := fun delay =>
    match calculateDelay (handler_of []) delay with
    | Ret (duration, _) => Some (duration / Millisecond)
    | Panic _ => None
    end in
  ms (ResponseDelay.mk 100 100) = Some 100 /\
  ms (ResponseDelay.mk 0 0) = Some 0 /\
  ms (ResponseDelay.mk 50 150) = Some 100.
Proof. repeat split; vm_compute; reflexivity. Qed.

End Tests.

(** * Further properties of the code *)

(** ** Validation and defaults *)

Lemma validate_delay_None_iff (i : nat) (delay : ResponseDelay.t) :
  validate_delay i delay = None <-> valid_delay delay.
Proof.
  unfold validate_delay, valid_delay.
  destruct (ResponseDelay.Min delay <? 0) eqn:H1;
    [split; [done | lia]|].
  destruct (ResponseDelay.Max delay <? 0) eqn:H2;
    [split; [done | lia]|].
  destruct (ResponseDelay.Max delay <? ResponseDelay.Min delay) eqn:H3;
    [split; [done | lia]|].
  destruct (MaxResponseDelayMs <? ResponseDelay.Max delay) eqn:H4;
    [split; [done | lia]|].
  split; [lia | done].
Qed.

Lemma validate_rule_None_iff (i : nat) (rule : RequestRule.t) :
  validate_rule i rule = None <-> valid_rule rule.
Proof.
  unfold validate_rule, valid_rule.
  case_bool_decide as Hp; [split; [done | tauto]|].
  case_bool_decide as Hm; [split; [done | tauto]|].
  destruct (ResponseSpec.StatusCode (RequestRule.Response rule) <? 100) eqn:H1;
    [split; [done | lia]|].
  destruct (599 <? ResponseSpec.StatusCode (RequestRule.Response rule)) eqn:H2;
    [split; [done | lia]|].
  cbn. destruct (RequestRule.ResponseDelay rule) as [delay|].
  - rewrite validate_delay_None_iff. split.
    + intros Hd. split; [done|]. split; [done|]. split; [lia|]. by intros ? [= <-].
    + intros (_ & _ & _ & Hd). by apply Hd.
  - split; [|done]. intros _. split; [done|]. split; [done|]. split; [lia | done].
Qed.

Lemma validate_rule_index (i : nat) (rule : RequestRule.t) (e : ConfigError) :
  validate_rule i rule = Some e -> error_rule_index e = Some i.
Proof.
  unfold validate_rule, validate_delay.
  repeat case_match; intros [= <-]; reflexivity.
Qed.

Lemma validate_rules_None_iff (i : nat) (rules : list RequestRule.t) :
  validate_rules i rules = None <-> (forall rule, rule ∈ rules -> valid_rule rule).
Proof.
  revert i. induction rules as [|x rest IH]; intros i; cbn.
  - split; [|done]. intros _ rule Hin. by apply elem_of_nil in Hin.
  - destruct (validate_rule i x) eqn:Hx.
    + split; [done|]. intros Hall.
      assert (Hv : valid_rule x) by (apply Hall; by left).
      apply validate_rule_None_iff with (i := i) in Hv. congruence.
    + rewrite IH. apply validate_rule_None_iff in Hx. split.
      * intros Hall rule [->|Hin]%elem_of_cons; [done | by apply Hall].
      * intros Hall rule Hin. apply Hall. by right.
Qed.

Lemma validate_rules_Some (i : nat) (rules : list RequestRule.t) (e : ConfigError) :
  validate_rules i rules = Some e ->
  exists j rule,
    rules !! j = Some rule /\ validate_rule (i + j) rule = Some e /\
    forall m rule_m, (m < j)%nat -> rules !! m = Some rule_m -> valid_rule rule_m.
Proof.
  revert i. induction rules as [|x rest IH]; intros i; cbn; [done|].
  destruct (validate_rule i x) eqn:Hx.
  - intros [= <-]. exists 0%nat, x. split; [done|]. split; [by rewrite Nat.add_0_r|].
    intros m rule_m Hm. lia.
  - intros (j & rule & Hj & Hv & Hbefore)%IH.
    exists (S j), rule. split; [done|]. split; [by rewrite Nat.add_succ_r|].
    intros [|m] rule_m Hm Hlook; cbn in Hlook.
    + injection Hlook as <-. by eapply validate_rule_None_iff.
    + apply (Hbefore m); [lia | done].
Qed.

Lemma validate_accepts_helper (c : Config.t) :
  validate c = None -> forall rule, rule ∈ Config.Requests c -> valid_rule rule.
Proof.
  unfold validate.
  destruct (ServerConfig.Port (Config.Server c) =? 0); [done|].
  apply validate_rules_None_iff.
Qed.

(** X1. [validate] accepts a configuration exactly when the port is not
    zero and every rule has a path, a method, a status code from 100 to
    599 and, if it has a delay, [0 <= Min <= Max <= MaxResponseDelayMs]. *)
Theorem validate_accepts_iff (c : Config.t) :
  validate c = None <->
  ServerConfig.Port (Config.Server c) <> 0 /\
  (forall rule, rule ∈ Config.Requests c -> valid_rule rule).
Proof.
  unfold validate.
  destruct (ServerConfig.Port (Config.Server c) =? 0) eqn:Hp.
  - split; [done|]. intros [Hne _]. lia.
  - rewrite validate_rules_None_iff. split; [|tauto]. intros Hall. split; [lia | done].
Qed.

(** X2. An error of [validate] is about the port when the port is zero,
    whatever the rules; otherwise it is the error of the first rule that
    is not valid, and names that rule's index. *)
Theorem validate_reports_first_invalid_rule (c : Config.t) (e : ConfigError) :
  validate c = Some e ->
  (ServerConfig.Port (Config.Server c) = 0 /\ e = ErrPortRequired) \/
  (ServerConfig.Port (Config.Server c) <> 0 /\
   exists i rule,
     Config.Requests c !! i = Some rule /\
     validate_rule i rule = Some e /\
     error_rule_index e = Some i /\
     forall m rule_m, (m < i)%nat -> Config.Requests c !! m = Some rule_m ->
                      valid_rule rule_m).
Proof.
  unfold validate.
  destruct (ServerConfig.Port (Config.Server c) =? 0) eqn:Hp.
  - intros [= <-]. left. split; [lia | done].
  - intros (j & rule & Hj & Hv & Hbefore)%validate_rules_Some. right.
    split; [lia|]. exists j, rule. cbn in Hv.
    split; [done|]. split; [done|]. split; [by eapply validate_rule_index | done].
Qed.

(** The second of three rules has no path: the error names index 1. *)
Lemma validate_reports_first_invalid_rule_witness :
  let good := RequestRule.mk "/a" ∅ ∅ "GET" (ResponseSpec.mk VNil 200 ∅) EmptyString None in
  let nopath := RequestRule.mk EmptyString ∅ ∅ "GET" (ResponseSpec.mk VNil 200 ∅)
                  EmptyString None in
  let nocode := RequestRule.mk "/c" ∅ ∅ "GET" (ResponseSpec.mk VNil 0 ∅) EmptyString None in
  let c := Config.mk (ServerConfig.mk 8080) [good; nopath; nocode] in
  validate c = Some (ErrPathRequired 1) /\
  ((ServerConfig.Port (Config.Server c) = 0 /\ ErrPathRequired 1 = ErrPortRequired) \/
   (ServerConfig.Port (Config.Server c) <> 0 /\
    exists i rule,
      Config.Requests c !! i = Some rule /\
      validate_rule i rule = Some (ErrPathRequired 1) /\
      error_rule_index (ErrPathRequired 1) = Some i /\
      forall m rule_m, (m < i)%nat -> Config.Requests c !! m = Some rule_m ->
                       valid_rule rule_m)).
Proof.
  intros good nopath nocode c. split; [reflexivity|].
  apply (validate_reports_first_invalid_rule c (ErrPathRequired 1)). reflexivity.
Defined.

Lemma small_ToUpper_keeps_nonempty : @ToUpper_keeps_nonempty Std.small.
Proof. intros [|c s] Hs; [done|]. cbn. discriminate. Qed.

Section Defaults.
Context `{GoStd}.

Lemma setDefaults_rule_Method_nonempty (raw : RequestRule.t) :
  ToUpper_keeps_nonempty ->
  RequestRule.Method (setDefaults_rule raw) <> EmptyString.
Proof.
  intros Hne. cbn. apply Hne. by case_bool_decide.
Qed.

Lemma setDefaults_rule_StatusCode (raw : RequestRule.t) :
  ResponseSpec.StatusCode (RequestRule.Response (setDefaults_rule raw)) <> 0.
Proof.
  cbn. destruct (ResponseSpec.StatusCode (RequestRule.Response raw) =? 0) eqn:Hc; lia.
Qed.

Lemma setDefaults_rule_idempotent (raw : RequestRule.t) :
  ToUpper_idempotent -> ToUpper_keeps_nonempty ->
  setDefaults_rule (setDefaults_rule raw) = setDefaults_rule raw.
Proof.
  intros Hidem Hne.
  pose proof (setDefaults_rule_Method_nonempty raw Hne) as Hm.
  pose proof (setDefaults_rule_StatusCode raw) as Hc.
  unfold setDefaults_rule at 1.
  rewrite bool_decide_eq_false_2 by done.
  destruct (ResponseSpec.StatusCode (RequestRule.Response (setDefaults_rule raw)) =? 0)
    eqn:Hz; [lia|].
  rewrite (setDefaults_rule_Method_upper raw Hidem).
  by destruct raw as [? ? ? ? [? ? ?] ? ?].
Qed.

End Defaults.

(** X3. [setDefaults] is idempotent: applied to a configuration that has
    its defaults, it changes nothing. *)
Theorem setDefaults_idempotent `{GoStd} (c : Config.t) :
  ToUpper_idempotent -> ToUpper_keeps_nonempty ->
  setDefaults (setDefaults c) = setDefaults c.
Proof.
  intros Hidem Hne. unfold setDefaults. cbn. f_equal.
  - f_equal. destruct (ServerConfig.Port (Config.Server c) =? 0) eqn:Hp; [done|].
    by rewrite Hp.
  - rewrite <- list_fmap_compose. apply list_fmap_ext.
    intros i raw _. cbn. by apply setDefaults_rule_idempotent.
Qed.

Lemma setDefaults_idempotent_witness :
  let raw := RequestRule.mk "/bar" ∅ ∅ "post" (ResponseSpec.mk VNil 0 ∅) EmptyString None in
  let c := Config.mk (ServerConfig.mk 0) [raw] in
  @ToUpper_idempotent Std.small /\ @ToUpper_keeps_nonempty Std.small /\
  @setDefaults Std.small (@setDefaults Std.small c) = @setDefaults Std.small c.
Proof.
  intros raw c.
  split; [exact small_ToUpper_idempotent|]. split; [exact small_ToUpper_keeps_nonempty|].
  apply (@setDefaults_idempotent Std.small c small_ToUpper_idempotent
           small_ToUpper_keeps_nonempty).
Defined.

Lemma validate_rule_Some_cases (i : nat) (rule : RequestRule.t) (e : ConfigError) :
  validate_rule i rule = Some e ->
  e <> ErrPortRequired /\
  (forall i', e = ErrMethodRequired i' -> RequestRule.Method rule = EmptyString) /\
  (forall i' code, e = ErrInvalidStatusCode i' code ->
                   code = ResponseSpec.StatusCode (RequestRule.Response rule)).
Proof.
  unfold validate_rule, validate_delay.
  case_bool_decide as Hp; [intros [= <-]; by repeat split|].
  case_bool_decide as Hm; [intros [= <-]; by repeat split|].
  destruct (_ || _); [intros [= <-]; repeat split; [done | done | by intros ? ? [= _ <-]]|].
  destruct (RequestRule.ResponseDelay rule) as [delay|]; [|done].
  repeat case_match; intros [= <-]; by repeat split.
Qed.

(** X4. Through [Load], three of the errors of [validate] cannot occur:
    after [setDefaults] the port is never zero, no method is empty and
    no status code is zero. *)
Theorem Load_never_reports_defaulted_fields `{GoStd} (parsed : Config.t) (e : ConfigError) :
  ToUpper_keeps_nonempty ->
  Load_parsed parsed = inr e ->
  e <> ErrPortRequired /\
  (forall i, e <> ErrMethodRequired i) /\
  (forall i, e <> ErrInvalidStatusCode i 0).
Proof.
  intros Hne. unfold Load_parsed.
  destruct (validate (setDefaults parsed)) as [e'|] eqn:Hv; [|done].
  intros [= <-]. unfold validate in Hv. cbn in Hv.
  destruct ((if ServerConfig.Port (Config.Server parsed) =? 0 then 8080
             else ServerConfig.Port (Config.Server parsed)) =? 0) eqn:Hp.
  { destruct (ServerConfig.Port (Config.Server parsed) =? 0) eqn:Hp'; lia. }
  apply validate_rules_Some in Hv as (j & rule & Hj & Hrule & _).
  apply list_lookup_fmap_Some in Hj as (raw & -> & _).
  pose proof (setDefaults_rule_Method_nonempty raw Hne) as Hm.
  pose proof (setDefaults_rule_StatusCode raw) as Hc.
  destruct (validate_rule_Some_cases _ _ _ Hrule) as (Hport & Hmeth & Hcode).
  split; [done|]. split.
  - intros i ->. by apply Hm, (Hmeth i).
  - intros i ->. by apply Hc, eq_sym, (Hcode i).
Qed.

Lemma Load_never_reports_defaulted_fields_witness :
  let raw := RequestRule.mk EmptyString ∅ ∅ EmptyString (ResponseSpec.mk VNil 0 ∅)
               EmptyString None in
  let parsed := Config.mk (ServerConfig.mk 0) [raw] in
  @ToUpper_keeps_nonempty Std.small /\
  @Load_parsed Std.small parsed = inr (ErrPathRequired 0) /\
  ErrPathRequired 0 <> ErrPortRequired /\
  (forall i, ErrPathRequired 0 <> ErrMethodRequired i) /\
  (forall i, ErrPathRequired 0 <> ErrInvalidStatusCode i 0).
Proof.
  intros raw parsed. split; [exact small_ToUpper_keeps_nonempty|]. split; [reflexivity|].
  apply (@Load_never_reports_defaulted_fields Std.small parsed (ErrPathRequired 0)
           small_ToUpper_keeps_nonempty).
  reflexivity.
Defined.

(** X5. A configuration that [Load] returns is the parsed one with its
    defaults; its port is not zero, and each of its rules is valid and
    has a method in upper case: what the handler compares the upper-cased
    method of a request with. *)
Theorem Load_returns_valid_rules `{GoStd} (parsed c : Config.t) :
  ToUpper_idempotent ->
  Load_parsed parsed = inl c ->
  c = setDefaults parsed /\
  length (Config.Requests c) = length (Config.Requests parsed) /\
  ServerConfig.Port (Config.Server c) <> 0 /\
  (forall rule, rule ∈ Config.Requests c ->
     valid_rule rule /\ ToUpper (RequestRule.Method rule) = RequestRule.Method rule).
Proof.
  intros Hidem. unfold Load_parsed.
  destruct (validate (setDefaults parsed)) eqn:Hv; [done|].
  intros [= <-]. split; [done|]. split; [cbn; by rewrite length_map|].
  unfold validate in Hv.
  destruct (ServerConfig.Port (Config.Server (setDefaults parsed)) =? 0) eqn:Hp; [done|].
  split; [lia|]. intros rule Hin. split.
  - by eapply validate_rules_None_iff.
  - cbn in Hin. apply list_elem_of_fmap in Hin as (raw & -> & _).
    by apply setDefaults_rule_Method_upper.
Qed.

Lemma Load_returns_valid_rules_witness :
  let raw := RequestRule.mk "/bar" ∅ ∅ "post" (ResponseSpec.mk VNil 0 ∅) EmptyString
               (Some (ResponseDelay.mk 50 150)) in
  let parsed := Config.mk (ServerConfig.mk 0) [raw] in
  let c := Config.mk (ServerConfig.mk 8080)
             [RequestRule.mk "/bar" ∅ ∅ "POST" (ResponseSpec.mk VNil 200 ∅) EmptyString
                (Some (ResponseDelay.mk 50 150))] in
  @ToUpper_idempotent Std.small /\
  @Load_parsed Std.small parsed = inl c /\
  c = @setDefaults Std.small parsed /\
  length (Config.Requests c) = length (Config.Requests parsed) /\
  ServerConfig.Port (Config.Server c) <> 0 /\
  (forall rule, rule ∈ Config.Requests c ->
     valid_rule rule /\ @ToUpper Std.small (RequestRule.Method rule) = RequestRule.Method rule).
Proof.
  intros raw parsed c. split; [exact small_ToUpper_idempotent|]. split; [reflexivity|].
  apply (@Load_returns_valid_rules Std.small parsed c small_ToUpper_idempotent).
  reflexivity.
Defined.

(** ** More on the selector and the matchers *)

Section MoreMatching.
Context `{GoStd}.

Lemma satisfies_true (rule : RequestRule.t) (r : Request.t) :
  satisfies rule r = true <->
  RequestRule.Path rule = Request.Path r /\
  RequestRule.Method rule = ToUpper (Request.Method r) /\
  matchesHeaders (RequestRule.Headers rule) (Request.Header r) = true /\
  matchesQueryParams (RequestRule.QueryParams rule) (Request.Query r) = true /\
  fst (matchesBody (RequestRule.Body rule) r) = true.
Proof.
  unfold satisfies, satisfies_as.
  rewrite !andb_true_iff, !bool_decide_eq_true. tauto.
Qed.

Lemma findMatchingRule_at_most (h : MockHandler) (r : Request.t) (i : nat)
    (rule : RequestRule.t) :
  Config.Requests (config h) !! i = Some rule ->
  satisfies rule r = true ->
  exists k rule_k, fst (findMatchingRule h r) = Some (k, rule_k) /\ (k <= i)%nat.
Proof.
  intros Hi Hsat. pose proof (findMatchingRule_spec h r) as Hspec.
  destruct (fst (findMatchingRule h r)) as [[k rule_k]|].
  - exists k, rule_k. split; [done|]. destruct Hspec as (_ & _ & Hbefore).
    destruct (decide (k <= i)%nat) as [|Hgt]; [done|].
    rewrite (Hbefore i rule) in Hsat; [done | lia | done].
  - rewrite Hspec in Hsat; [done|]. by eapply list_elem_of_lookup_2.
Qed.

Lemma forallb_Permutation {A : Type} (f : A -> bool) (l l' : list A) :
  l ≡ₚ l' -> forallb f l = forallb f l'.
Proof.
  intros Hperm. induction Hperm; cbn; try congruence.
  by rewrite !andb_assoc, (andb_comm (f y)).
Qed.

Lemma findMatchingRule_from_readable (rules : list RequestRule.t) (i : nat)
    (path method : string) (r : Request.t) :
  Reader.failing (Request.Body r) = false ->
  snd (findMatchingRule_from rules i path method r) = r.
Proof.
  intros Hread. revert i. induction rules as [|rule rest IH]; intros i; [done|].
  cbn [findMatchingRule_from].
  repeat (match goal with
          | |- context [if negb ?b then _ else _] => destruct b; cbn [negb]; [|apply IH]
          end).
  pose proof (matchesBody_readable (RequestRule.Body rule) r Hread) as Hsame.
  destruct (matchesBody (RequestRule.Body rule) r) as [ok r']. cbn in Hsame. subst r'.
  destruct ok; cbn [negb]; [done | apply IH].
Qed.

End MoreMatching.

(** X6. The rule the selector returns is a rule of the configuration, at
    the index returned, whose path is the path of the request and whose
    method is the upper-cased method of the request; and a rule whose
    path differs from the request's, be it by a trailing slash or by
    case, does not satisfy the conditions. *)
Theorem selected_rule_has_path_and_method `{GoStd} (h : MockHandler) (r : Request.t) :
  (forall k rule,
      fst (findMatchingRule h r) = Some (k, rule) ->
      Config.Requests (config h) !! k = Some rule /\
      RequestRule.Path rule = Request.Path r /\
      RequestRule.Method rule = ToUpper (Request.Method r)) /\
  (forall rule, RequestRule.Path rule <> Request.Path r -> satisfies rule r = false).
Proof.
  split.
  - intros k rule Hfind. pose proof (findMatchingRule_spec h r) as Hspec.
    rewrite Hfind in Hspec. destruct Hspec as (Hk & Hsat & _).
    apply satisfies_true in Hsat. tauto.
  - intros rule Hne. unfold satisfies, satisfies_as.
    by rewrite bool_decide_eq_false_2.
Qed.

(** X7. A rule without header patterns, query patterns and body pattern
    satisfies the conditions for every request with its path and method,
    whatever the headers, query and body of the request, even a body
    that cannot be read; the selector then returns that rule or one
    before it. *)
Theorem rule_without_patterns_matches `{GoStd} (h : MockHandler) (r : Request.t)
    (i : nat) (rule : RequestRule.t) :
  Config.Requests (config h) !! i = Some rule ->
  RequestRule.Path rule = Request.Path r ->
  RequestRule.Method rule = ToUpper (Request.Method r) ->
  RequestRule.Headers rule = ∅ ->
  RequestRule.QueryParams rule = ∅ ->
  RequestRule.Body rule = EmptyString ->
  satisfies rule r = true /\
  exists k rule_k, fst (findMatchingRule h r) = Some (k, rule_k) /\ (k <= i)%nat.
Proof.
  intros Hi Hp Hm Hh Hq Hb.
  assert (Hsat : satisfies rule r = true).
  { apply satisfies_true. rewrite Hh, Hq, Hb. done. }
  split; [done|]. by eapply findMatchingRule_at_most.
Qed.

Lemma rule_without_patterns_matches_witness :
  let rule := Fixtures.rule_of "/ping" "GET" ∅ ∅ 200 (VString "pong") in
  let h := Fixtures.handler_of [rule] in
  let r := Request.mk "get" "/ping" {[ "x" := ["1"] ]} {[ "Accept" := ["text/html"] ]}
             (Reader.mk "partial" true) None in
  @satisfies Std.small rule r = true /\
  exists k rule_k, fst (@findMatchingRule Std.small h r) = Some (k, rule_k) /\ (k <= 0)%nat.
Proof.
  intros rule h r.
  apply (@rule_without_patterns_matches Std.small h r 0%nat rule); reflexivity.
Defined.

(** X8. The matchers look at the request only under the names of the
    rule: a query parameter that the rule does not name, and a header
    whose canonical name no name of the rule has, can be added to the
    request, or changed, without changing the result. *)
Theorem unnamed_entries_are_ignored `{GoStd} (m : gmap string string) :
  (forall (q : Values) (k : string) (vs : list string),
      m !! k = None ->
      matchesQueryParams m (<[k := vs]> q) = matchesQueryParams m q) /\
  (forall (hdr : Header) (ck : string) (vs : list string),
      (forall name, is_Some (m !! name) -> CanonicalMIMEHeaderKey name <> ck) ->
      matchesHeaders m (<[ck := vs]> hdr) = matchesHeaders m hdr).
Proof.
  split.
  - intros q k vs Hk. apply eq_true_iff_eq. rewrite !matchesQueryParams_entries.
    split; intros Hall name pat Hl; specialize (Hall name pat Hl);
      unfold Values_Get in *;
      (rewrite lookup_insert_ne in * by congruence); done.
  - intros hdr ck vs Hck. apply eq_true_iff_eq. rewrite !matchesHeaders_entries.
    split; intros Hall name pat Hl; specialize (Hall name pat Hl);
      unfold Header_Get in *;
      (rewrite lookup_insert_ne in * by (apply not_eq_sym, Hck; eauto)); done.
Qed.

(** X9. Of a query parameter or header with several values, only the
    first value is matched. *)
Theorem only_first_value_is_matched `{GoStd} (m : gmap string string)
    (k v : string) (vs : list string) :
  (forall q : Values,
      matchesQueryParams m (<[k := v :: vs]> q) = matchesQueryParams m (<[k := [v]]> q)) /\
  (forall hdr : Header,
      matchesHeaders m (<[k := v :: vs]> hdr) = matchesHeaders m (<[k := [v]]> hdr)).
Proof.
  split.
  - intros q. apply eq_true_iff_eq. rewrite !matchesQueryParams_entries.
    assert (Hget : forall name,
      Values_Get (<[k := v :: vs]> q) name = Values_Get (<[k := [v]]> q) name).
    { intros name. unfold Values_Get. destruct (decide (k = name)) as [->|Hne].
      - by rewrite !lookup_insert_eq.
      - by rewrite !lookup_insert_ne. }
    split; intros Hall name pat Hl; specialize (Hall name pat Hl);
      by rewrite ?Hget in *.
  - intros hdr. apply eq_true_iff_eq. rewrite !matchesHeaders_entries.
    assert (Hget : forall name,
      Header_Get (<[k := v :: vs]> hdr) name = Header_Get (<[k := [v]]> hdr) name).
    { intros name. unfold Header_Get.
      destruct (decide (k = CanonicalMIMEHeaderKey name)) as [->|Hne].
      - by rewrite !lookup_insert_eq.
      - by rewrite !lookup_insert_ne. }
    split; intros Hall name pat Hl; specialize (Hall name pat Hl);
      by rewrite ?Hget in *.
Qed.

(** X10. The result of a matcher does not depend on the order in which
    the entries of the rule's pattern map are visited: testing the
    entries in any order gives the result of the matcher. *)
Theorem map_order_does_not_matter `{GoStd} (m : gmap string string)
    (l : list (string * string)) :
  l ≡ₚ map_to_list m ->
  (forall hdr : Header,
      forallb (fun '(name, pat) => matchesPattern pat (Header_Get hdr name)) l
      = matchesHeaders m hdr) /\
  (forall q : Values,
      forallb (fun '(name, pat) => matchesPattern pat (Values_Get q name)) l
      = matchesQueryParams m q).
Proof.
  intros Hperm.
  assert (Hempty : size m = 0%nat -> l = []).
  { intros ->%map_size_empty_iff. rewrite map_to_list_empty in Hperm.
    by apply Permutation_nil_r. }
  split.
  - intros hdr. unfold matchesHeaders. case_bool_decide as Hsize.
    + by rewrite (Hempty Hsize).
    + by apply forallb_Permutation.
  - intros q. unfold matchesQueryParams. case_bool_decide as Hsize.
    + by rewrite (Hempty Hsize).
    + by apply forallb_Permutation.
Qed.

Lemma map_order_does_not_matter_witness :
  let m : gmap string string := {[ "Accept" := ".*"; "Content-Type" := "application/.*" ]} in
  let l := [("Content-Type", "application/.*"); ("Accept", ".*")] in
  let l' := [("Accept", ".*"); ("Content-Type", "application/.*")] in
  let hdr : Header := {[ "Content-Type" := ["application/json"] ]} in
  l ≡ₚ map_to_list m /\ l' ≡ₚ map_to_list m /\
  forallb (fun '(name, pat) => @matchesPattern Std.small pat (@Header_Get Std.small hdr name)) l
  = @matchesHeaders Std.small m hdr /\
  forallb (fun '(name, pat) => @matchesPattern Std.small pat (@Header_Get Std.small hdr name)) l'
  = @matchesHeaders Std.small m hdr.
Proof.
  intros m l l' hdr.
  assert (Hl' : l' ≡ₚ map_to_list m).
  { unfold l', m. rewrite map_to_list_insert by done.
    by rewrite map_to_list_singleton. }
  assert (Hl : l ≡ₚ map_to_list m).
  { rewrite <- Hl'. apply perm_swap. }
  split; [done|]. split; [done|]. split.
  - apply (@map_order_does_not_matter Std.small m l Hl).
  - apply (@map_order_does_not_matter Std.small m l' Hl').
Defined.

(** ** The request body *)

(** X11. When the body of the request cannot be read, no body pattern
    is satisfied, a rule without body pattern is not affected (the body
    is not read for it), and the rule the selector returns, if any, has
    no body pattern. *)
Theorem unreadable_body_matches_no_pattern `{GoStd} (h : MockHandler) (r : Request.t) :
  Reader.failing (Request.Body r) = true ->
  (forall ruleBody, ruleBody <> EmptyString -> fst (matchesBody ruleBody r) = false) /\
  matchesBody EmptyString r = (true, r) /\
  (forall k rule, fst (findMatchingRule h r) = Some (k, rule) ->
                  RequestRule.Body rule = EmptyString).
Proof.
  intros Hfail.
  assert (Hno : forall ruleBody, ruleBody <> EmptyString ->
                                 fst (matchesBody ruleBody r) = false).
  { intros ruleBody Hne. unfold matchesBody.
    rewrite bool_decide_eq_false_2 by done. cbn. by rewrite Hfail. }
  split; [done|]. split; [done|].
  intros k rule Hfind. pose proof (findMatchingRule_spec h r) as Hspec.
  rewrite Hfind in Hspec. destruct Hspec as (_ & Hsat & _).
  apply satisfies_true in Hsat as (_ & _ & _ & _ & Hbody).
  destruct (decide (RequestRule.Body rule = EmptyString)) as [|Hne]; [done|].
  rewrite Hno in Hbody; done.
Qed.

Lemma unreadable_body_matches_no_pattern_witness :
  let h := Fixtures.handler_of
             [RequestRule.mk "/in" ∅ ∅ "POST" (ResponseSpec.mk VNil 200 ∅) "par" None;
              Fixtures.rule_of "/in" "POST" ∅ ∅ 202 VNil] in
  let r := Request.mk "POST" "/in" ∅ ∅ (Reader.mk "partial" true) None in
  (forall ruleBody, ruleBody <> EmptyString ->
                    fst (@matchesBody Std.small ruleBody r) = false) /\
  @matchesBody Std.small EmptyString r = (true, r) /\
  (forall k rule, fst (@findMatchingRule Std.small h r) = Some (k, rule) ->
                  RequestRule.Body rule = EmptyString).
Proof.
  intros h r.
  apply (@unreadable_body_matches_no_pattern Std.small h r). reflexivity.
Defined.

(** X12. The selector leaves a readable request as it found it: however
    many body patterns it tried, the body can be read again in full
    afterwards. *)
Theorem findMatchingRule_keeps_request `{GoStd} (h : MockHandler) (r : Request.t) :
  Reader.failing (Request.Body r) = false ->
  snd (findMatchingRule h r) = r /\
  ReadAll (Request.Body (snd (findMatchingRule h r)))
  = (Reader.pending (Request.Body r), false, Reader.mk EmptyString false).
Proof.
  intros Hread.
  assert (Hsame : snd (findMatchingRule h r) = r).
  { unfold findMatchingRule. by apply findMatchingRule_from_readable. }
  split; [done|]. rewrite Hsame. unfold ReadAll. by rewrite Hread.
Qed.

Lemma findMatchingRule_keeps_request_witness :
  let h := Fixtures.handler_of
             [RequestRule.mk "/in" ∅ ∅ "POST" (ResponseSpec.mk VNil 200 ∅) "[0-9]+" None;
              RequestRule.mk "/in" ∅ ∅ "POST" (ResponseSpec.mk VNil 201 ∅) "hel+o" None] in
  let r := Request.mk "POST" "/in" ∅ ∅ (NewReader "hello") None in
  snd (@findMatchingRule Std.small h r) = r /\
  ReadAll (Request.Body (snd (@findMatchingRule Std.small h r)))
  = (Reader.pending (Request.Body r), false, Reader.mk EmptyString false).
Proof.
  intros h r. apply (@findMatchingRule_keeps_request Std.small h r). reflexivity.
Defined.

(** ** Delays of a validated configuration *)

(** X13. For a rule of a configuration that [validate] accepts, the
    delay calculator does not panic; the duration it returns is a whole
    number of milliseconds from [Min] to [Max], at most
    [MaxResponseDelayMs] milliseconds and so below the [WriteTimeout] of
    the server; and the configuration of the handler is not touched. *)
Theorem validated_delay_is_below_write_timeout `{GoStd} (h : MockHandler)
    (c : Config.t) (rule : RequestRule.t) (delay : ResponseDelay.t) :
  Intn_in_range ->
  validate c = None ->
  rule ∈ Config.Requests c ->
  RequestRule.ResponseDelay rule = Some delay ->
  exists ms h',
    calculateDelay h delay = Ret (ms * Millisecond, h') /\
    ResponseDelay.Min delay <= ms <= ResponseDelay.Max delay /\
    0 <= ms * Millisecond <= MaxResponseDelayMs * Millisecond /\
    ms * Millisecond < WriteTimeout /\
    config h' = config h.
Proof.
  intros Hrand Hv Hin Hd.
  destruct (validate_delay_range c rule delay Hv Hin Hd) as (Hmin & Hmax & Hcap).
  pose proof MaxDurationMs_value as HB. unfold MaxResponseDelayMs in *.
  destruct (decide (ResponseDelay.Min delay = ResponseDelay.Max delay)) as [Heq|Hne].
  - exists (ResponseDelay.Min delay), h.
    rewrite calculateDelay_fixed by lia. rewrite int_mul_Millisecond by lia.
    unfold WriteTimeout, Second, Millisecond. repeat split; try done; lia.
  - set (n := ResponseDelay.Max delay - ResponseDelay.Min delay + 1).
    pose proof (Hrand (rand h) n ltac:(unfold n; lia)) as Hk. fold n in Hk.
    exists (ResponseDelay.Min delay + fst (draw (rand h) n)),
           (NewMockHandlerWithRand (config h) (snd (draw (rand h) n))).
    rewrite calculateDelay_drawn by lia. fold n.
    assert (Hadd : int_add (ResponseDelay.Min delay) (fst (draw (rand h) n))
                   = ResponseDelay.Min delay + fst (draw (rand h) n)).
    { apply wrap64_in_range. unfold int_min, int_max, n in *. lia. }
    rewrite Hadd. rewrite int_mul_Millisecond by (unfold n in *; lia).
    unfold WriteTimeout, Second, Millisecond, n in *. repeat split; try done; lia.
Qed.

Lemma validated_delay_is_below_write_timeout_witness :
  let rule := RequestRule.mk "/delayed-range" ∅ ∅ "GET"
                (ResponseSpec.mk (VString "delayed response") 200 ∅) EmptyString
                (Some (ResponseDelay.mk 0 MaxResponseDelayMs)) in
  let c := Config.mk (ServerConfig.mk 8080) [rule] in
  let h := @NewMockHandlerWithRand Std.small c 42 in
  let delay := ResponseDelay.mk 0 MaxResponseDelayMs in
  exists ms h',
    @calculateDelay Std.small h delay = Ret (ms * Millisecond, h') /\
    ResponseDelay.Min delay <= ms <= ResponseDelay.Max delay /\
    0 <= ms * Millisecond <= MaxResponseDelayMs * Millisecond /\
    ms * Millisecond < WriteTimeout /\
    @config Std.small h' = @config Std.small h.
Proof.
  intros rule c h delay.
  apply (@validated_delay_is_below_write_timeout Std.small h c rule delay
           small_Intn_in_range);
    [reflexivity | apply list_elem_of_singleton; reflexivity | reflexivity].
Defined.

(** ** The dispatcher on a validated configuration *)

Section Dispatch.
Context `{GoStd}.

Lemma calculateDelay_valid (h : MockHandler) (delay : ResponseDelay.t) :
  valid_delay delay ->
  exists duration h', calculateDelay h delay = Ret (duration, h').
Proof.
  intros (Hmin & Hle & Hmax). pose proof MaxDurationMs_value as HB.
  unfold MaxResponseDelayMs in Hmax.
  destruct (decide (ResponseDelay.Min delay < ResponseDelay.Max delay)) as [Hlt|Hge].
  - rewrite calculateDelay_drawn by lia. eauto.
  - rewrite calculateDelay_fixed by lia. eauto.
Qed.

Lemma append_empty_r (s : string) : s +:+ EmptyString = s.
Proof.
  induction s as [|c s IH]; [done|].
  change (String c (s +:+ EmptyString) = String c s). by rewrite IH.
Qed.

Lemma WriteHeader_HeaderMap (w w' : ResponseWriter.t) (code : Z) :
  WriteHeader w code = Ret w' -> ResponseWriter.HeaderMap w' = ResponseWriter.HeaderMap w.
Proof.
  unfold WriteHeader. destruct (ResponseWriter.wroteHeader w); [by intros [= <-]|].
  destruct (_ || _); [done|]. by intros [= <-].
Qed.

Lemma writeBody_writes (w : ResponseWriter.t) (body : Value) :
  body <> VNil ->
  ResponseWriter.wroteHeader w = true ->
  ResponseWriter.HeaderMap (fst (writeBody w body)) = ResponseWriter.HeaderMap w /\
  ResponseWriter.Code (fst (writeBody w body)) = ResponseWriter.Code w /\
  ResponseWriter.Body (fst (writeBody w body)) = ResponseWriter.Body w +:+ body_bytes body.
Proof.
  intros Hnil Hw. pose proof append_empty_r as Hempty.
  destruct body as [|s|b|z|items|fields]; [done | by cbn; rewrite Hw | ..];
    (cbn [writeBody body_bytes]; destruct (Marshal _) as [data|]; cbn [fst];
     [by cbn; rewrite Hw | by rewrite Hempty]).
Qed.

(** What the synthesizer leaves in the writer, for a status code that
    [WriteHeader] takes. *)
Lemma sendResponse_result (w : ResponseWriter.t) (rule : RequestRule.t) :
  100 <= ResponseSpec.StatusCode (RequestRule.Response rule) <= 999 ->
  exists w',
    sendResponse w rule = Ret w' /\
    ResponseWriter.HeaderMap w'
    = ResponseWriter.HeaderMap
        (foldl (fun w '(key, value) => Header_Set w key value) w
           (map_to_list (ResponseSpec.Headers (RequestRule.Response rule)))) /\
    (ResponseWriter.wroteHeader w = false ->
     ResponseWriter.Code w' = ResponseSpec.StatusCode (RequestRule.Response rule)) /\
    ResponseWriter.Body w'
    = ResponseWriter.Body w +:+ body_bytes (ResponseSpec.Body (RequestRule.Response rule)).
Proof.
  intros Hcode. unfold sendResponse.
  set (w1 := foldl _ w _).
  destruct (set_headers_keeps
              (map_to_list (ResponseSpec.Headers (RequestRule.Response rule))) w)
    as (Hwrote & _ & Hbody).
  fold w1 in Hwrote, Hbody.
  destruct (WriteHeader_valid w1 _ Hcode) as (w2 & Hw2 & Hbody2 & Hwrote2 & Hcode2).
  rewrite Hw2. pose proof (WriteHeader_HeaderMap _ _ _ Hw2) as Hmap.
  rewrite Hwrote in Hcode2. rewrite Hbody in Hbody2. cbn.
  assert (Hcase : ResponseSpec.Body (RequestRule.Response rule) = VNil \/
                  ResponseSpec.Body (RequestRule.Response rule) <> VNil).
  { destruct (ResponseSpec.Body (RequestRule.Response rule)); auto. }
  destruct Hcase as [->|Hnil].
  - exists w2. split; [done|]. split; [done|]. split; [done|].
    rewrite Hbody2. cbn [body_bytes]. by rewrite append_empty_r.
  - destruct (writeBody_writes w2 _ Hnil Hwrote2) as (Hm3 & Hc3 & Hb3).
    exists (fst (writeBody w2 (ResponseSpec.Body (RequestRule.Response rule)))).
    split; [by destruct (ResponseSpec.Body (RequestRule.Response rule))|].
    split; [congruence|]. split; [intros Hf; rewrite Hc3; by apply Hcode2|].
    by rewrite Hb3, Hbody2.
Qed.

Lemma select_wait_late (duration t : Z) (tie : bool) :
  0 <= duration < t -> select_wait duration (Some t) tie = DelayCompleted.
Proof.
  intros Ht. unfold select_wait.
  destruct (Z.max 0 t <? Z.max 0 duration) eqn:H1; [lia|].
  destruct (Z.max 0 duration <? Z.max 0 t) eqn:H2; [done | lia].
Qed.

End Dispatch.

(** X14. With a configuration that [validate] accepts, the handler does
    not panic: for every request, every state of the response writer and
    whichever case its [select] takes, [ServeHTTP] returns. *)
Theorem validated_handler_never_panics `{GoStd} (h : MockHandler)
    (w : ResponseWriter.t) (r : Request.t) (tie : bool) :
  validate (config h) = None ->
  exists served, ServeHTTP h w r tie = Ret served.
Proof.
  intros Hv. pose proof (validate_accepts_helper _ Hv) as Hall.
  unfold ServeHTTP. pose proof (findMatchingRule_spec h r) as Hspec.
  destruct (findMatchingRule h r) as [[[k rule]|] r']; cbn in Hspec.
  - destruct Hspec as (Hk & _ & _).
    destruct (Hall rule) as (_ & _ & Hcode & Hdelay); [by eapply list_elem_of_lookup_2|].
    destruct (sendResponse_result w rule ltac:(lia)) as (w' & Hsend & _).
    unfold writeResponse. destruct (RequestRule.ResponseDelay rule) as [delay|].
    + destruct (calculateDelay_valid h delay (Hdelay delay eq_refl))
        as (duration & h' & ->). cbn.
      destruct (select_wait _ _ _); [rewrite Hsend|]; eauto.
    + rewrite Hsend. eauto.
  - unfold http_NotFound, http_Error.
    match goal with
    | |- context [WriteHeader ?w0 StatusNotFound] =>
        destruct (WriteHeader_valid w0 StatusNotFound ltac:(unfold StatusNotFound; lia))
          as (w' & -> & _)
    end.
    eauto.
Qed.

Lemma validated_handler_never_panics_witness :
  let rule := RequestRule.mk "/delayed" ∅ ∅ "GET"
                (ResponseSpec.mk (VString "delayed response") 200 ∅) EmptyString
                (Some (ResponseDelay.mk 50 150)) in
  let h := Fixtures.handler_of [rule] in
  let r := Request.mk "GET" "/delayed" ∅ ∅ (NewReader EmptyString) (Some 70000000) in
  validate (@config Std.small h) = None /\
  exists served, @ServeHTTP Std.small h NewRecorder r true = Ret served.
Proof.
  intros rule h r. split; [reflexivity|].
  apply (@validated_handler_never_panics Std.small h NewRecorder r true). reflexivity.
Defined.

(** X15. A request that matches a rule of a validated configuration and
    whose context is never done gets the response of that rule: on a
    fresh writer the status code is the rule's, the body is the body the
    writer had followed by the bytes of the rule's body, and a duration
    was waited for exactly when the rule has a delay. *)
Theorem matched_request_gets_rule_response `{GoStd} (h : MockHandler)
    (w : ResponseWriter.t) (r : Request.t) (tie : bool) (k : nat) (rule : RequestRule.t) :
  validate (config h) = None ->
  fst (findMatchingRule h r) = Some (k, rule) ->
  Request.DoneAt r = None ->
  ResponseWriter.wroteHeader w = false ->
  exists served,
    ServeHTTP h w r tie = Ret served /\
    ResponseWriter.Code (writer served) = ResponseSpec.StatusCode (RequestRule.Response rule) /\
    ResponseWriter.Body (writer served)
    = ResponseWriter.Body w +:+ body_bytes (ResponseSpec.Body (RequestRule.Response rule)) /\
    (waited served = None <-> RequestRule.ResponseDelay rule = None).
Proof.
  intros Hv Hfind Hctx Hfresh. pose proof (validate_accepts_helper _ Hv) as Hall.
  pose proof (findMatchingRule_spec h r) as Hspec.
  pose proof (findMatchingRule_from_DoneAt (Config.Requests (config h)) 0
                (Request.Path r) (ToUpper (Request.Method r)) r) as Hctx'.
  fold (findMatchingRule h r) in Hctx'. rewrite Hctx in Hctx'.
  unfold ServeHTTP.
  destruct (findMatchingRule h r) as [found r']. cbn in Hfind, Hspec, Hctx'. subst found.
  destruct Hspec as (Hk & _ & _).
  destruct (Hall rule) as (_ & _ & Hcode & Hdelay); [by eapply list_elem_of_lookup_2|].
  destruct (sendResponse_result w rule ltac:(lia)) as (w' & Hsend & _ & Hc & Hb).
  unfold writeResponse. destruct (RequestRule.ResponseDelay rule) as [delay|].
  - destruct (calculateDelay_valid h delay (Hdelay delay eq_refl)) as (duration & h' & ->).
    cbn. rewrite Hctx'. cbn. rewrite Hsend. cbn.
    eexists. split; [reflexivity|]. cbn. split; [by apply Hc|]. split; [done|]. done.
  - rewrite Hsend. cbn.
    eexists. split; [reflexivity|]. cbn. split; [by apply Hc|]. split; [done|]. done.
Qed.

Lemma matched_request_gets_rule_response_witness :
  let rule := RequestRule.mk "/headers" {[ "Content-Type" := "text/plain" ]} ∅ "GET"
                (ResponseSpec.mk (VString "ok") 200 {[ "X-Test" := "yes" ]}) EmptyString
                (Some (ResponseDelay.mk 100 100)) in
  let h := Fixtures.handler_of [rule] in
  let r := Request.mk "GET" "/headers" ∅ {[ "Content-Type" := ["text/plain"] ]}
             (NewReader EmptyString) None in
  exists served,
    @ServeHTTP Std.small h NewRecorder r false = Ret served /\
    ResponseWriter.Code (writer served) = 200 /\
    ResponseWriter.Body (writer served) = EmptyString +:+ "ok" /\
    (waited served = None <-> Some (ResponseDelay.mk 100 100) = None).
Proof.
  intros rule h r.
  apply (@matched_request_gets_rule_response Std.small h NewRecorder r false 0%nat rule);
    reflexivity.
Defined.

(** X16. A context that is done only after the delay is over comes too
    late: the response is written in full, as for a request that is
    never cancelled. *)
Theorem late_cancellation_is_ignored `{GoStd} (h h' : MockHandler)
    (w : ResponseWriter.t) (r : Request.t) (rule : RequestRule.t) (tie : bool)
    (delay : ResponseDelay.t) (duration t : Z) :
  RequestRule.ResponseDelay rule = Some delay ->
  calculateDelay h delay = Ret (duration, h') ->
  Request.DoneAt r = Some t ->
  0 <= duration < t ->
  writeResponse h w r rule tie
  = (w' ← sendResponse w rule; Ret (mkServed w' h' (Some duration))) /\
  writeResponse h w r rule tie
  = writeResponse h w
      (Request.mk (Request.Method r) (Request.Path r) (Request.Query r)
         (Request.Header r) (Request.Body r) None) rule tie.
Proof.
  intros Hd Hcalc Hctx Ht. unfold writeResponse. rewrite Hd, Hcalc. cbn.
  by rewrite Hctx, select_wait_late.
Qed.

Lemma late_cancellation_is_ignored_witness :
  let rule := RequestRule.mk "/delayed" ∅ ∅ "GET"
                (ResponseSpec.mk (VString "delayed response") 200 ∅) EmptyString
                (Some (ResponseDelay.mk 100 100)) in
  let h := Fixtures.handler_of [rule] in
  let r := Request.mk "GET" "/delayed" ∅ ∅ (NewReader EmptyString) (Some 100000001) in
  @writeResponse Std.small h NewRecorder r rule true
  = (w' ← @sendResponse Std.small NewRecorder rule; Ret (mkServed w' h (Some 100000000))) /\
  @writeResponse Std.small h NewRecorder r rule true
  = @writeResponse Std.small h NewRecorder
      (Request.mk "GET" "/delayed" ∅ ∅ (NewReader EmptyString) None) rule true.
Proof.
  intros rule h r.
  apply (@late_cancellation_is_ignored Std.small h h NewRecorder r rule true
           (ResponseDelay.mk 100 100) 100000000 100000001);
    [reflexivity | reflexivity | reflexivity | lia].
Defined.

(** ** Response headers and the status code *)

Section ResponseHeaders.
Context `{GoStd}.

(** After the loop over the response headers, a canonical name holds
    what it held before when no entry has it, and otherwise the single
    value of an entry that has it. *)
Lemma set_headers_lookup (l : list (string * string)) (w : ResponseWriter.t) (ck : string) :
  let w' := foldl (fun w '(key, value) => Header_Set w key value) w l in
  ((forall k v, (k, v) ∈ l -> CanonicalMIMEHeaderKey k <> ck) /\
   ResponseWriter.HeaderMap w' !! ck = ResponseWriter.HeaderMap w !! ck) \/
  (exists k v, (k, v) ∈ l /\ CanonicalMIMEHeaderKey k = ck /\
               ResponseWriter.HeaderMap w' !! ck = Some [v]).
Proof.
  revert w. induction l as [|[k v] l IH]; intros w; cbn.
  - left. split; [|done]. intros k v Hin. by apply elem_of_nil in Hin.
  - destruct (IH (Header_Set w k v)) as [[Hnone Hsame]|(k' & v' & Hin & Hck & Hl)].
    + destruct (decide (CanonicalMIMEHeaderKey k = ck)) as [Heq|Hne].
      * right. exists k, v. split; [by left|]. split; [done|].
        rewrite Hsame. cbn. rewrite <- Heq. apply lookup_insert_eq.
      * left. split.
        -- intros k0 v0 [[= -> ->]|Hin]%elem_of_cons; [done | by eapply Hnone].
        -- rewrite Hsame. cbn. by rewrite lookup_insert_ne.
    + right. exists k', v'. split; [by right | done].
Qed.

End ResponseHeaders.

(** X17. The synthesizer sets every configured response header, under
    its canonical name, to a single value that replaces what the writer
    held: the value configured for that name, or, when several configured
    names have the same canonical name, the value of one of them.
    Headers under other names are left as they were. *)
Theorem response_headers_are_set `{GoStd} (w : ResponseWriter.t) (rule : RequestRule.t) :
  100 <= ResponseSpec.StatusCode (RequestRule.Response rule) <= 999 ->
  exists w',
    sendResponse w rule = Ret w' /\
    (forall ck,
        (forall k, is_Some (ResponseSpec.Headers (RequestRule.Response rule) !! k) ->
                   CanonicalMIMEHeaderKey k <> ck) ->
        ResponseWriter.HeaderMap w' !! ck = ResponseWriter.HeaderMap w !! ck) /\
    (forall k v,
        ResponseSpec.Headers (RequestRule.Response rule) !! k = Some v ->
        exists k' v',
          ResponseSpec.Headers (RequestRule.Response rule) !! k' = Some v' /\
          CanonicalMIMEHeaderKey k' = CanonicalMIMEHeaderKey k /\
          ResponseWriter.HeaderMap w' !! CanonicalMIMEHeaderKey k = Some [v']) /\
    (forall k v,
        ResponseSpec.Headers (RequestRule.Response rule) !! k = Some v ->
        (forall k', is_Some (ResponseSpec.Headers (RequestRule.Response rule) !! k') ->
                    CanonicalMIMEHeaderKey k' = CanonicalMIMEHeaderKey k -> k' = k) ->
        ResponseWriter.HeaderMap w' !! CanonicalMIMEHeaderKey k = Some [v]).
Proof.
  intros Hcode.
  destruct (sendResponse_result w rule Hcode) as (w' & Hsend & Hmap & _).
  set (hs := ResponseSpec.Headers (RequestRule.Response rule)) in *.
  exists w'. split; [done|]. rewrite Hmap.
  assert (Hset : forall k v,
    hs !! k = Some v ->
    exists k' v',
      hs !! k' = Some v' /\ CanonicalMIMEHeaderKey k' = CanonicalMIMEHeaderKey k /\
      ResponseWriter.HeaderMap
        (foldl (fun w '(key, value) => Header_Set w key value) w (map_to_list hs))
        !! CanonicalMIMEHeaderKey k = Some [v']).
  { intros k v Hk.
    destruct (set_headers_lookup (map_to_list hs) w (CanonicalMIMEHeaderKey k))
      as [[Hnone _]|(k' & v' & Hin & Hck & Hl)].
    - exfalso. apply (Hnone k v); [|done]. by apply elem_of_map_to_list.
    - exists k', v'. split; [by apply elem_of_map_to_list | done]. }
  split; [|split].
  - intros ck Hother.
    destruct (set_headers_lookup (map_to_list hs) w ck)
      as [[_ Hsame]|(k' & v' & Hin & Hck & _)]; [done|].
    apply elem_of_map_to_list in Hin. exfalso. by apply (Hother k').
  - done.
  - intros k v Hk Hinj. destruct (Hset k v Hk) as (k' & v' & Hk' & Hck & Hl).
    assert (k' = k) as -> by (apply Hinj; [done | done]).
    rewrite Hk in Hk'. by injection Hk' as <-.
Qed.

(** The header of the repository's test. *)
Lemma response_headers_are_set_witness :
  let rule := RequestRule.mk "/headers" ∅ ∅ "GET"
                (ResponseSpec.mk (VString "ok") 200 {[ "x-test" := "yes" ]}) EmptyString
                None in
  100 <= 200 <= 999 /\
  exists w',
    @sendResponse Std.small NewRecorder rule = Ret w' /\
    ResponseWriter.HeaderMap w' !! "X-Test" = Some ["yes"].
Proof.
  intros rule. split; [lia|].
  destruct (@response_headers_are_set Std.small NewRecorder rule ltac:(cbn; lia))
    as (w' & Hsend & _ & _ & Hset).
  exists w'. split; [exact Hsend|].
  apply (Hset "x-test" "yes"); [apply lookup_singleton_eq|].
  intros k' [v' Hk']. cbn in Hk'. apply lookup_singleton_Some in Hk' as [<- _]. reflexivity.
Defined.

(** X18. The synthesizer panics on a status code that is below 100 or
    above 999 when the status has not been written yet: a rule that did
    not get its default status code (zero) is an example.  [validate]
    excludes such codes. *)
Theorem invalid_status_code_panics `{GoStd} (w : ResponseWriter.t) (rule : RequestRule.t) :
  ResponseWriter.wroteHeader w = false ->
  ResponseSpec.StatusCode (RequestRule.Response rule) < 100 \/
  999 < ResponseSpec.StatusCode (RequestRule.Response rule) ->
  sendResponse w rule = Panic "invalid WriteHeader code" /\
  forall i, validate_rule i rule <> None.
Proof.
  intros Hfresh Hcode. split.
  - unfold sendResponse.
    destruct (set_headers_keeps
                (map_to_list (ResponseSpec.Headers (RequestRule.Response rule))) w)
      as (Hwrote & _ & _).
    unfold WriteHeader. rewrite Hwrote, Hfresh.
    destruct (ResponseSpec.StatusCode (RequestRule.Response rule) <? 100) eqn:H1; [done|].
    destruct (999 <? ResponseSpec.StatusCode (RequestRule.Response rule)) eqn:H2; [done|].
    lia.
  - intros i Hv. apply validate_rule_None_iff in Hv as (_ & _ & Hc & _). lia.
Qed.

Lemma invalid_status_code_panics_witness :
  let rule := RequestRule.mk "/fast" ∅ ∅ "GET" (ResponseSpec.mk (VString "fast response") 0 ∅)
                EmptyString None in
  @sendResponse Std.small NewRecorder rule = Panic "invalid WriteHeader code" /\
  (forall i, validate_rule i rule <> None) /\
  @ServeHTTP Std.small (Fixtures.handler_of [rule]) NewRecorder
     (Request.mk "GET" "/fast" ∅ ∅ (NewReader EmptyString) None) false
  = Panic "invalid WriteHeader code".
Proof.
  intros rule.
  destruct (@invalid_status_code_panics Std.small NewRecorder rule eq_refl
              ltac:(left; cbn; lia)) as [Hpanic Hval].
  split; [exact Hpanic|]. split; [exact Hval | reflexivity].
Defined.

(** ** The logging middleware *)

Lemma append_assoc (a b c : string) : (a +:+ b) +:+ c = a +:+ (b +:+ c).
Proof.
  induction a as [|x a IH]; [done|].
  change (String x ((a +:+ b) +:+ c) = String x (a +:+ (b +:+ c))). by rewrite IH.
Qed.

Section LoggingProofs.
Context `{GoStd}.

Lemma call_Body (w w' : ResponseWriter.t) (c : WriterCall) :
  call w c = Ret w' ->
  ResponseWriter.Body w' = ResponseWriter.Body w +:+ written [c].
Proof.
  destruct c as [key value|key|code|data]; cbn.
  - intros [= <-]. cbn. by rewrite append_empty_r.
  - intros [= <-]. cbn. by rewrite append_empty_r.
  - unfold WriteHeader. repeat case_match; intros [= <-]; cbn; by rewrite append_empty_r.
  - intros [= <-]. cbn. by rewrite append_empty_r.
Qed.

Lemma written_cons (c : WriterCall) (cs : list WriterCall) :
  written (c :: cs) = written [c] +:+ written cs.
Proof. destruct c; cbn; [done | done | done |]. by rewrite append_empty_r. Qed.

(** The wrapped writer sees the calls that the logging writer receives,
    and the buffer of the logging writer grows by the bytes written. *)
Lemma lw_calls_inner (cs : list WriterCall) (lw : loggingResponseWriter.t) :
  match lw_calls lw cs with
  | Ret lw' =>
      calls (loggingResponseWriter.ResponseWriter lw) cs
      = Ret (loggingResponseWriter.ResponseWriter lw') /\
      loggingResponseWriter.body lw' = loggingResponseWriter.body lw +:+ written cs /\
      ResponseWriter.Body (loggingResponseWriter.ResponseWriter lw')
      = ResponseWriter.Body (loggingResponseWriter.ResponseWriter lw) +:+ written cs
  | Panic msg => calls (loggingResponseWriter.ResponseWriter lw) cs = Panic msg
  end.
Proof.
  revert lw. induction cs as [|c cs IH]; intros lw.
  - cbn. by rewrite !append_empty_r.
  - cbn [lw_calls calls].
    assert (Hstep :
      match lw_call lw c with
      | Ret lw1 =>
          call (loggingResponseWriter.ResponseWriter lw) c
          = Ret (loggingResponseWriter.ResponseWriter lw1) /\
          loggingResponseWriter.body lw1 = loggingResponseWriter.body lw +:+ written [c]
      | Panic msg => call (loggingResponseWriter.ResponseWriter lw) c = Panic msg
      end).
    { destruct c as [key value|key|code|data]; cbn; try by rewrite append_empty_r.
      unfold lw_WriteHeader.
      destruct (WriteHeader (loggingResponseWriter.ResponseWriter lw) code); cbn;
        [by rewrite append_empty_r | done]. }
    rewrite (written_cons c cs). set (wc := written [c]) in *.
    destruct (lw_call lw c) as [lw1|msg]; cbn.
    + destruct Hstep as [Hcall Hbuf]. rewrite Hcall. cbn.
      specialize (IH lw1). destruct (lw_calls lw1 cs) as [lw'|msg]; [|done].
      destruct IH as (Hcalls & Hbuf' & Hbody'). split; [done|].
      rewrite <- !append_assoc.
      rewrite Hbuf', Hbuf, Hbody'. split; [done|].
      by rewrite (call_Body _ _ _ Hcall).
    + by rewrite Hstep.
Qed.

(** The status the logging writer records: that of the last call of
    [WriteHeader], and the one it had when there is none. *)
Lemma lw_calls_no_WriteHeader (cs : list WriterCall) (lw lw' : loggingResponseWriter.t) :
  forallb (fun c => negb (is_WriteHeader c)) cs = true ->
  lw_calls lw cs = Ret lw' ->
  loggingResponseWriter.statusCode lw' = loggingResponseWriter.statusCode lw.
Proof.
  revert lw. induction cs as [|c cs IH]; intros lw Hno; cbn.
  - by intros [= <-].
  - cbn in Hno. apply andb_true_iff in Hno as [Hc Hcs].
    destruct c as [key value|key|code|data]; cbn in Hc |- *; try done;
      intros Hrun; by rewrite (IH _ Hcs Hrun).
Qed.

Lemma calls_header_calls (cs : list WriterCall) (w : ResponseWriter.t) :
  forallb is_header_call cs = true ->
  exists w',
    calls w cs = Ret w' /\
    ResponseWriter.wroteHeader w' = ResponseWriter.wroteHeader w /\
    ResponseWriter.Code w' = ResponseWriter.Code w.
Proof.
  revert w. induction cs as [|c cs IH]; intros w Hh; cbn.
  - by exists w.
  - cbn in Hh. apply andb_true_iff in Hh as [Hc Hcs].
    destruct c as [key value|key|code|data]; cbn in Hc |- *; try done.
    + destruct (IH (Header_Set w key value) Hcs) as (w' & Hrun & Hw & Hcode).
      exists w'. by rewrite Hrun, Hw, Hcode.
    + destruct (IH (Header_Del w key) Hcs) as (w' & Hrun & Hw & Hcode).
      exists w'. by rewrite Hrun, Hw, Hcode.
Qed.

(** Once the header is written, no call changes the status of the response. *)
Lemma calls_Code_committed (cs : list WriterCall) (w w' : ResponseWriter.t) :
  ResponseWriter.wroteHeader w = true ->
  calls w cs = Ret w' ->
  ResponseWriter.Code w' = ResponseWriter.Code w /\ ResponseWriter.wroteHeader w' = true.
Proof.
  revert w. induction cs as [|c cs IH]; intros w Hw; cbn.
  - by intros [= <-].
  - destruct c as [key value|key|code|data]; cbn.
    + intros Hrun. by destruct (IH (Header_Set w key value) Hw Hrun).
    + intros Hrun. by destruct (IH (Header_Del w key) Hw Hrun).
    + unfold WriteHeader. rewrite Hw. cbn. by apply IH.
    + intros Hrun. destruct (IH (WriteBytes w data) eq_refl Hrun) as [-> ->].
      cbn. by rewrite Hw.
Qed.

Lemma calls_app (l1 l2 : list WriterCall) (w : ResponseWriter.t) :
  calls w (l1 ++ l2) = (w1 ← calls w l1; calls w1 l2).
Proof.
  revert w. induction l1 as [|c l1 IH]; intros w; [done|].
  cbn. destruct (call w c); cbn; [apply IH | done].
Qed.

Lemma lw_calls_app (l1 l2 : list WriterCall) (lw : loggingResponseWriter.t) :
  lw_calls lw (l1 ++ l2) = (lw1 ← lw_calls lw l1; lw_calls lw1 l2).
Proof.
  revert lw. induction l1 as [|c l1 IH]; intros lw; [done|].
  cbn. destruct (lw_call lw c); cbn; [apply IH | done].
Qed.

Lemma calls_header_sets (l : list (string * string)) (w : ResponseWriter.t) :
  calls w (map (fun '(key, value) => CallHeaderSet key value) l)
  = Ret (foldl (fun w '(key, value) => Header_Set w key value) w l).
Proof.
  revert w. induction l as [|[key value] l IH]; intros w; [done|]. cbn. apply IH.
Qed.

Lemma sendResponse_as_calls (w : ResponseWriter.t) (rule : RequestRule.t) :
  sendResponse w rule = calls w (sendResponse_calls rule).
Proof.
  unfold sendResponse, sendResponse_calls.
  rewrite calls_app, calls_header_sets. cbn.
  destruct (WriteHeader _ _) as [w2|msg]; cbn; [|done].
  destruct (ResponseSpec.Body (RequestRule.Response rule)); cbn; try done;
    by destruct (Marshal _).
Qed.

Lemma http_NotFound_as_calls (w : ResponseWriter.t) :
  http_NotFound w = calls w http_NotFound_calls.
Proof.
  unfold http_NotFound, http_Error, http_NotFound_calls. cbn.
  by destruct (WriteHeader _ _).
Qed.

(** The mock handler is the calls it makes, made on its writer. *)
Lemma ServeHTTP_as_calls (h : MockHandler) (w : ResponseWriter.t) (r : Request.t)
    (tie : bool) :
  ServeHTTP h w r tie
  = ('(cs, h', waited) ← ServeHTTP_calls h r tie;
     w' ← calls w cs; Ret (mkServed w' h' waited)).
Proof.
  unfold ServeHTTP, ServeHTTP_calls.
  destruct (findMatchingRule h r) as [[[k rule]|] r']; cbn.
  - unfold writeResponse. destruct (RequestRule.ResponseDelay rule) as [delay|].
    + destruct (calculateDelay h delay) as [[duration h']|msg]; cbn; [|done].
      destruct (select_wait _ _ _); cbn; [|done]. by rewrite sendResponse_as_calls.
    + cbn. by rewrite sendResponse_as_calls.
  - by rewrite http_NotFound_as_calls.
Qed.

End LoggingProofs.

Section LoggingStatus.
Context `{GoStd}.

Lemma header_call_not_WriteHeader (cs : list WriterCall) :
  forallb is_header_call cs = true ->
  forallb (fun c => negb (is_WriteHeader c)) cs = true.
Proof.
  induction cs as [|c cs IH]; [done|]. cbn. intros [Hc Hcs]%andb_true_iff.
  rewrite (IH Hcs). by destruct c.
Qed.

Lemma calls_Code_200 (cs : list WriterCall) (w w' : ResponseWriter.t) :
  forallb (fun c => negb (is_WriteHeader c)) cs = true ->
  ResponseWriter.Code w = 200 ->
  calls w cs = Ret w' ->
  ResponseWriter.Code w' = 200.
Proof.
  revert w. induction cs as [|c cs IH]; intros w Hno Hcode; cbn.
  - by intros [= <-].
  - cbn in Hno. apply andb_true_iff in Hno as [Hc Hcs].
    destruct c as [key value|key|code|data]; cbn in Hc |- *; try done.
    + by apply IH.
    + by apply IH.
    + apply IH; [done|]. cbn. by destruct (ResponseWriter.wroteHeader w).
Qed.

Lemma lw_calls_status_none (cs : list WriterCall) (lw lw' : loggingResponseWriter.t) :
  loggingResponseWriter.statusCode lw = 200 ->
  ResponseWriter.Code (loggingResponseWriter.ResponseWriter lw) = 200 ->
  forallb (fun c => negb (is_WriteHeader c)) cs = true ->
  lw_calls lw cs = Ret lw' ->
  loggingResponseWriter.statusCode lw' = 200 /\
  ResponseWriter.Code (loggingResponseWriter.ResponseWriter lw') = 200.
Proof.
  intros Hs Hc Hno Hrun. split.
  - by rewrite (lw_calls_no_WriteHeader cs lw lw' Hno Hrun).
  - pose proof (lw_calls_inner cs lw) as Hinner. rewrite Hrun in Hinner.
    destruct Hinner as (Hcalls & _). by eapply calls_Code_200.
Qed.

Lemma lw_calls_status_once (pre post : list WriterCall) (code : Z)
    (lw lw' : loggingResponseWriter.t) :
  ResponseWriter.wroteHeader (loggingResponseWriter.ResponseWriter lw) = false ->
  forallb is_header_call pre = true ->
  forallb (fun c => negb (is_WriteHeader c)) post = true ->
  lw_calls lw (pre ++ CallWriteHeader code :: post) = Ret lw' ->
  loggingResponseWriter.statusCode lw' = code /\
  ResponseWriter.Code (loggingResponseWriter.ResponseWriter lw') = code.
Proof.
  intros Hfresh Hpre Hpost Hrun.
  pose proof (lw_calls_inner (pre ++ CallWriteHeader code :: post) lw) as Hinner.
  rewrite Hrun in Hinner. destruct Hinner as (Hcalls & _).
  split.
  - rewrite lw_calls_app in Hrun.
    destruct (lw_calls lw pre) as [lw1|] eqn:H1; [|done]. cbn in Hrun.
    unfold lw_WriteHeader in Hrun.
    destruct (WriteHeader _ code) as [w2|]; [|done]. cbn in Hrun.
    by rewrite (lw_calls_no_WriteHeader post _ lw' Hpost Hrun).
  - rewrite calls_app in Hcalls.
    destruct (calls_header_calls pre (loggingResponseWriter.ResponseWriter lw) Hpre)
      as (w1 & Hw1 & Hwrote1 & _).
    rewrite Hw1 in Hcalls. cbn in Hcalls. rewrite Hfresh in Hwrote1.
    unfold WriteHeader in Hcalls. rewrite Hwrote1 in Hcalls.
    destruct (_ || _); [done|]. cbn in Hcalls.
    match type of Hcalls with
    | calls ?w2 post = _ =>
        by destruct (calls_Code_committed post w2 _ eq_refl Hcalls) as [-> _]
    end.
Qed.

(** The calls of the mock handler: none, or header calls, one call of
    [WriteHeader] and then at most one [Write]. *)
Lemma ServeHTTP_calls_shape (h h' : MockHandler) (r : Request.t) (tie : bool)
    (cs : list WriterCall) (waited : option Z) :
  ServeHTTP_calls h r tie = Ret (cs, h', waited) ->
  cs = [] \/
  exists (pre : list WriterCall) code post,
    cs = (pre ++ CallWriteHeader code :: post)%list /\
    forallb is_header_call pre = true /\
    forallb (fun c => negb (is_WriteHeader c)) post = true.
Proof.
  assert (Hsend : forall rule,
    exists (pre : list WriterCall) code post,
      sendResponse_calls rule = (pre ++ CallWriteHeader code :: post)%list /\
      forallb is_header_call pre = true /\
      forallb (fun c => negb (is_WriteHeader c)) post = true).
  { intros rule. unfold sendResponse_calls. eexists _, _, _. split; [reflexivity|]. split.
    - induction (map_to_list _) as [|[key value] l IH]; [done|]. cbn. apply IH.
    - destruct (ResponseSpec.Body (RequestRule.Response rule)); cbn; try done;
        by destruct (Marshal _). }
  unfold ServeHTTP_calls.
  destruct (findMatchingRule h r) as [[[k rule]|] r'].
  - destruct (RequestRule.ResponseDelay rule) as [delay|].
    + destruct (calculateDelay h delay) as [[duration h1]|msg]; cbn; [|done].
      destruct (select_wait _ _ _); intros [= <- <- <-]; [right; apply Hsend | by left].
    + intros [= <- <- <-]. right. apply Hsend.
  - intros [= <- <- <-]. right.
    exists [CallHeaderDel "Content-Length";
            CallHeaderSet "Content-Type" "text/plain; charset=utf-8";
            CallHeaderSet "X-Content-Type-Options" "nosniff"],
           StatusNotFound, [CallWrite ("404 page not found" +:+ LF)].
    done.
Qed.

End LoggingStatus.

(** X19. The middleware does not interfere with the response: whatever
    calls the next handler makes, the response writer ends as if they
    had been made on it directly (a panic of a call included), the
    handler being given the request with its body buffered; and the line
    logged holds the method, the request body and the bytes written,
    [(empty)] standing for no bytes. *)
Theorem middleware_is_transparent `{GoStd} (next : Request.t -> Exec (list WriterCall))
    (w : ResponseWriter.t) (r : Request.t) :
  match next (snd (bufferRequestBody r)) with
  | Panic msg => LoggingMiddleware next w r = Panic msg
  | Ret cs =>
      match calls w cs with
      | Panic msg => LoggingMiddleware next w r = Panic msg
      | Ret w' =>
          exists line,
            LoggingMiddleware next w r = Ret (w', line) /\
            logMethod line = Request.Method r /\
            logRequestBody line = or_empty (Reader.pending (Request.Body r)) /\
            logResponseBody line = or_empty (written cs)
      end
  end.
Proof.
  unfold LoggingMiddleware, bufferRequestBody. cbn.
  destruct (next _) as [cs|msg]; cbn; [|done].
  pose proof (lw_calls_inner cs (loggingResponseWriter.mk w 200 EmptyString)) as Hinner.
  cbn in Hinner.
  destruct (lw_calls _ cs) as [lw'|msg]; cbn.
  - destruct Hinner as (-> & Hbuf & _). eexists. split; [reflexivity|]. cbn.
    by rewrite Hbuf.
  - by rewrite Hinner.
Qed.

(** X20. The status the logging writer records is the status of the
    response when the handler, on a fresh writer, calls [WriteHeader] at
    most once and before it writes: 200 without such a call, the code
    given otherwise.  A call of [WriteHeader] after the header is
    written changes the status recorded and leaves the response as it is. *)
Theorem logged_status_is_response_status `{GoStd} (lw lw' : loggingResponseWriter.t)
    (cs : list WriterCall) :
  ResponseWriter.wroteHeader (loggingResponseWriter.ResponseWriter lw) = false ->
  ResponseWriter.Code (loggingResponseWriter.ResponseWriter lw) = 200 ->
  loggingResponseWriter.statusCode lw = 200 ->
  lw_calls lw cs = Ret lw' ->
  (forallb (fun c => negb (is_WriteHeader c)) cs = true ->
   loggingResponseWriter.statusCode lw' = 200 /\
   ResponseWriter.Code (loggingResponseWriter.ResponseWriter lw') = 200) /\
  (forall (pre : list WriterCall) code post,
      cs = (pre ++ CallWriteHeader code :: post)%list ->
      forallb is_header_call pre = true ->
      forallb (fun c => negb (is_WriteHeader c)) post = true ->
      loggingResponseWriter.statusCode lw' = code /\
      ResponseWriter.Code (loggingResponseWriter.ResponseWriter lw') = code) /\
  (forall code,
      ResponseWriter.wroteHeader (loggingResponseWriter.ResponseWriter lw') = true ->
      lw_WriteHeader lw' code
      = Ret (loggingResponseWriter.mk (loggingResponseWriter.ResponseWriter lw') code
               (loggingResponseWriter.body lw'))).
Proof.
  intros Hfresh Hcode Hstatus Hrun. split; [|split].
  - intros Hno. by eapply lw_calls_status_none.
  - intros pre code post -> Hpre Hpost. by eapply lw_calls_status_once.
  - intros code Hw. unfold lw_WriteHeader, WriteHeader. by rewrite Hw.
Qed.

(** The calls of the repository's test of the middleware, and then a
    second call of [WriteHeader]. *)
Lemma logged_status_is_response_status_witness :
  let lw := loggingResponseWriter.mk NewRecorder 200 EmptyString in
  let cs := [CallHeaderSet "X-From" "next"; CallWriteHeader 418; CallWrite "{ok:true}"] in
  exists lw',
    @lw_calls Std.small lw cs = Ret lw' /\
    loggingResponseWriter.statusCode lw' = 418 /\
    ResponseWriter.Code (loggingResponseWriter.ResponseWriter lw') = 418 /\
    exists lw'',
      lw_WriteHeader lw' 500 = Ret lw'' /\
      loggingResponseWriter.statusCode lw'' = 500 /\
      ResponseWriter.Code (loggingResponseWriter.ResponseWriter lw'') = 418.
Proof.
  intros lw cs. eexists. split; [reflexivity|].
  match goal with
  | |- loggingResponseWriter.statusCode ?lw' = _ /\ _ =>
      destruct (@logged_status_is_response_status Std.small lw lw' cs
                  eq_refl eq_refl eq_refl eq_refl) as (_ & Honce & Hlate)
  end.
  destruct (Honce [CallHeaderSet "X-From" "next"] 418 [CallWrite "{ok:true}"]
              eq_refl eq_refl eq_refl) as [Hs Hc].
  split; [exact Hs|]. split; [exact Hc|].
  eexists. split; [apply Hlate; reflexivity|]. split; reflexivity.
Defined.

(** X21. The middleware drops an error of reading the request body: the
    next handler gets a readable body holding the bytes that were read,
    so that behind the middleware a body pattern is matched against
    those bytes, whereas the handler alone does not match a body that
    failed to read. *)
Theorem middleware_masks_read_errors `{GoStd} (r : Request.t) (ruleBody : string)
    (re : Regexp) :
  Reader.failing (Request.Body r) = true ->
  ruleBody <> EmptyString ->
  Compile ruleBody = Some re ->
  Request.Body (snd (bufferRequestBody r)) = NewReader (Reader.pending (Request.Body r)) /\
  fst (matchesBody ruleBody (snd (bufferRequestBody r)))
  = MatchString re (Reader.pending (Request.Body r)) /\
  fst (matchesBody ruleBody r) = false.
Proof.
  intros Hfail Hne Hc. split; [done|]. split.
  - unfold matchesBody. rewrite bool_decide_eq_false_2 by done. cbn. by rewrite Hc.
  - unfold matchesBody. rewrite bool_decide_eq_false_2 by done. cbn. by rewrite Hfail.
Qed.

Lemma middleware_masks_read_errors_witness :
  let r := Request.mk "POST" "/in" ∅ ∅ (Reader.mk "hello wor" true) None in
  fst (@matchesBody Std.small "hel+o" (snd (bufferRequestBody r))) = true /\
  fst (@matchesBody Std.small "hel+o" r) = false.
Proof.
  intros r.
  destruct (@Compile Std.small "hel+o") as [re|] eqn:Hre; [|discriminate Hre].
  destruct (@middleware_masks_read_errors Std.small r "hel+o" re eq_refl
              ltac:(discriminate) Hre) as (_ & Hbuf & Hraw).
  split; [|exact Hraw]. rewrite Hbuf.
  injection Hre as <-. reflexivity.
Defined.

(** X22. Behind the middleware, on a fresh response writer, the mock
    handler writes the response it writes alone for the request with its
    body buffered, which is the request itself when its body can be
    read; and the line logged has the status code and the body of that
    response. *)
Theorem logged_mock_handler `{GoStd} (h : MockHandler) (w : ResponseWriter.t)
    (r : Request.t) (tie : bool) :
  ResponseWriter.wroteHeader w = false ->
  ResponseWriter.Code w = 200 ->
  ResponseWriter.Body w = EmptyString ->
  match ServeHTTP h w (snd (bufferRequestBody r)) tie with
  | Ret served =>
      LoggingMiddleware (mock_next h tie) w r
      = Ret (writer served,
             mkLogLine (Request.Method r) (or_empty (Reader.pending (Request.Body r)))
               (ResponseWriter.Code (writer served))
               (or_empty (ResponseWriter.Body (writer served))))
  | Panic msg => LoggingMiddleware (mock_next h tie) w r = Panic msg
  end /\
  (Reader.failing (Request.Body r) = false -> snd (bufferRequestBody r) = r).
Proof.
  intros Hfresh Hcode Hbody. split.
  - rewrite ServeHTTP_as_calls.
    unfold LoggingMiddleware, mock_next, bufferRequestBody. cbn.
    destruct (ServeHTTP_calls h _ tie) as [[[cs h'] waited]|msg] eqn:Hcalls; cbn; [|done].
    set (lw := loggingResponseWriter.mk w 200 EmptyString).
    pose proof (lw_calls_inner cs lw) as Hinner.
    destruct (lw_calls lw cs) as [lw'|msg] eqn:Hrun; cbn.
    + destruct Hinner as (Hw' & Hbuf & Hsent). cbn in Hw', Hbuf, Hsent.
      rewrite Hw'. cbn. rewrite Hbody in Hsent. rewrite Hsent, Hbuf.
      do 2 f_equal. f_equal.
      destruct (ServeHTTP_calls_shape _ _ _ _ _ _ Hcalls)
        as [->|(pre & code & post & -> & Hpre & Hpost)].
      * cbn in Hrun. injection Hrun as <-. cbn. by rewrite Hcode.
      * destruct (lw_calls_status_once pre post code lw lw' Hfresh Hpre Hpost Hrun)
          as [-> ->]. done.
    + cbn in Hinner. by rewrite Hinner.
  - intros Hread. destruct r as [me pa qu he [pending failing] ctx].
    cbn in Hread. subst failing. reflexivity.
Qed.

(** The rule for [/ping] behind the middleware. *)
Lemma logged_mock_handler_witness :
  let h := Fixtures.handler_of [Fixtures.rule_of "/ping" "GET" ∅ ∅ 200 (VString "pong")] in
  let r := Request.mk "GET" "/ping" ∅ ∅ (NewReader EmptyString) None in
  exists w',
    @LoggingMiddleware Std.small (@mock_next Std.small h false) NewRecorder r
    = Ret (w', mkLogLine "GET" "(empty)" 200 "pong") /\
    ResponseWriter.Code w' = 200 /\ ResponseWriter.Body w' = "pong".
Proof.
  intros h r.
  destruct (@logged_mock_handler Std.small h NewRecorder r false eq_refl eq_refl eq_refl)
    as [Hlog _].
  eexists. split; [exact Hlog|]. split; reflexivity.
Defined.
